(** * photon-tools: the time-binning engine [bin_photons]

    A shallow embedding of [src/bin_photons.pyx] and the properties of
    its output: which bins are emitted, with which counts, in which
    order, and how the chunked output buffer relates to a single
    growing one.

    How the Cython source is read:
    - the arguments arrive as values of their declared C types: the
      entries of [times], [start_t] and [end_t] are [uint64_t],
      [bin_width] is an [int];
    - in an operation on a [uint64_t] and an [int] the [int] is converted
      to [uint64_t] and the result is reduced modulo [2 ^ 64];
    - [/] on C integers is integer division, and Cython raises
      [ZeroDivisionError] for a zero divisor;
    - [bin_count] is a [short]: [bin_count += 1] adds in [int] and
      narrows the sum back to 16 bits by two's complement;
    - the step of [range(..., ..., bin_width)] is not a constant, so the
      loop runs over Python's [range] and each value is converted to
      the [Py_ssize_t] variable [j], which fails beyond [2 ^ 63 - 1];
    - indexing a typed buffer is bounds-checked. *)

From Stdlib Require Import ZArith List Lia Bool.
From stdpp Require Import base list sorting.

Local Open Scope Z_scope.

(** ** Machine integers

    The Cython source declares C integers; each is a [Z] here together
    with the reduction that a C assignment or arithmetic operation of
    that width performs. *)

Module CInt.

(** [uint64_t]: timestamps, [bin_start], [new_start], [start_t], [end_t]. *)
Definition u64 (x : Z) : Z := x mod 2 ^ 64.

(** [unsigned int]: the write index [bin]. *)
Definition u32 (x : Z) : Z := x mod 2 ^ 32.

(** [np.uint16]: the [count] field of a stored record. *)
Definition u16 (x : Z) : Z := x mod 2 ^ 16.

(** [short]: the running counter [bin_count]. *)
Definition s16 (x : Z) : Z := (x + 2 ^ 15) mod 2 ^ 16 - 2 ^ 15.

(** Largest value of [Py_ssize_t], the type of the loop variable [j]. *)
Definition ssize_max : Z := 2 ^ 63 - 1.

End CInt.
Export CInt.

(** ** Exceptions and the error monad *)

Inductive PyError : Type :=
| IndexError          (* times[0] on an empty array, chunk[bin] out of bounds *)
| ZeroDivisionError   (* a C integer division by zero, checked by Cython *)
| OverflowError.      (* a Python integer that does not fit Py_ssize_t *)

Inductive result (A : Type) : Type :=
| Ok (a : A)
| Raise (e : PyError).
Arguments Ok {A} a.
Arguments Raise {A} e.

Definition bind {A B} (m : result A) (k : A → result B) : result B :=
  match m with
  | Ok a => k a
  | Raise e => Raise e
  end.

Notation "x ←r m ; k" := (bind m (fun x => k))
  (at level 100, m at next level, right associativity,
   format "x  ←r  m ;  '/' k").

(** ** Data model *)

(** Modelled from the spec: the record type [Bin] and its dtype
    [bin_dtype] are declared in [timetag_types], which is not among the
    sources; the docstring of [bin_photons] and the spec give its fields,
    [start_t] (u8, an unsigned 64-bit integer) and [count] (u2, an
    unsigned 16-bit integer). *)
Record Bin : Type := mkBin { start_t : Z; count : Z }.

(** The default [-1] of the [uint64_t] parameters [start_t] and [end_t]:
    the all-ones value, which the comparisons [== -1] and [!= -1] test. *)
Definition UNSPECIFIED : Z := Eval cbv in u64 (-1).

(** [cdef unsigned int chunk_sz = 10000] *)
Definition chunk_sz : Z := 10000.

(** The output under construction: the list [chunks] of full chunks, the
    current array [chunk] and the write index [bin] into it. *)
Record Buffer : Type := mkBuffer {
  chunks : list (list Bin);
  chunk : list Bin;
  bin : Z
}.

(** The variables the main loop carries from one event to the next. *)
Record State : Type := mkState {
  bin_start : Z;
  bin_count : Z;
  buf : Buffer
}.

(** ** Python's [range] with three arguments *)

Definition range_len (lo hi step : Z) : Z :=
  if 0 <? step then (if lo <? hi then 1 + (hi - 1 - lo) / step else 0)
  else if step <? 0 then (if hi <? lo then 1 + (lo - 1 - hi) / (- step) else 0)
  else 0.

(** [range(lo, hi, step)]. A zero step never reaches [range]: the division
    by [bin_width] on line 24 has raised before. *)
Definition py_range (lo hi step : Z) : list Z :=
  (λ k, lo + k * step) <$> seqZ 0 (range_len lo hi step).

Section BinPhotons.

(** [np.empty] returns an array whose entries are whatever the memory
    held: [uninit] stands for that content. *)
Variable uninit : Bin.

(** [np.empty(chunk_sz, dtype=bin_dtype)] *)
Definition np_empty : list Bin := replicate (Z.to_nat chunk_sz) uninit.

(** The block repeated at lines 31-37, 42-48 and 57-63:
<<
    chunk[bin].start_t = ...; chunk[bin].count = ...
    bin += 1
    if bin == chunk_sz:
        chunks.append(chunk); chunk = np.empty(...); bin = 0
>>
    Cython checks the index of a buffer access ([boundscheck] is on by
    default), the write to both fields is one record update. *)
Definition store (e : Bin) (b : Buffer) : result Buffer :=
  if bin b <? Z.of_nat (length (chunk b)) then
    let chunk' := <[Z.to_nat (bin b) := e]> (chunk b) in
    let bin' := u32 (bin b + 1) in
    if bin' =? chunk_sz then
      Ok {| chunks := chunks b ++ [chunk']; chunk := np_empty; bin := 0 |}
    else
      Ok {| chunks := chunks b; chunk := chunk'; bin := bin' |}
  else Raise IndexError.

(** The body of [for j in range(...)] over the values [js] of the
    range: each value is converted to the [Py_ssize_t] variable [j],
    then stored with a zero count. *)
Fixpoint zero_bins (js : list Z) (b : Buffer) : result Buffer :=
  match js with
  | [] => Ok b
  | j :: js' =>
      if ssize_max <? j then Raise OverflowError
      else b' ←r store {| start_t := u64 j; count := 0 |} b;
           zero_bins js' b'
  end.

(** One iteration of [for i in range(times.shape[0])], lines 29-53,
    on the event [t = times[i]]: when the event lies at or beyond the end
    of the bin in progress (line 29), that bin is stored (lines 31-37),
    then the zero-count bins up to the bin of the event (lines 40-48),
    and the counter restarts at zero (lines 50-51); in either case the
    event is counted (line 53). *)
Definition step (bin_width : Z) (include_zeros : bool)
    (st : State) (t : Z) : result State :=
  let bw := u64 bin_width in
  if u64 (bin_start st + bw) <=? t then
    let new_start := u64 (t / bw * bw) in
    b1 ←r store {| start_t := bin_start st; count := u16 (bin_count st) |}
                (buf st);
    b2 ←r (if include_zeros
           then zero_bins (py_range (u64 (bin_start st + bw)) new_start
                                    bin_width) b1
           else Ok b1);
    Ok {| bin_start := new_start; bin_count := s16 (0 + 1); buf := b2 |}
  else
    Ok {| bin_start := bin_start st;
          bin_count := s16 (bin_count st + 1);
          buf := buf st |}.

(** The pass over the events. *)
Fixpoint bin_loop (bin_width : Z) (include_zeros : bool)
    (times : list Z) (st : State) : result State :=
  match times with
  | [] => Ok st
  | t :: ts => st' ←r step bin_width include_zeros st t;
               bin_loop bin_width include_zeros ts st'
  end.

(** Lines 17-26: the anchor of the first bin, [times[0]] unless [start_t]
    is given (line 23), aligned down to a multiple of [bin_width]
    (line 24), and the initial state. *)
Definition init_state (times : list Z) (bin_width start_t : Z)
    : result State :=
  t0 ←r (if start_t =? UNSPECIFIED
         then match times !! 0%nat with
              | Some t => Ok t
              | None => Raise IndexError
              end
         else Ok start_t);
  if bin_width =? 0 then Raise ZeroDivisionError
  else
    Ok {| bin_start := u64 (t0 / u64 bin_width * u64 bin_width);
          bin_count := 0;
          buf := {| chunks := []; chunk := np_empty; bin := 0 |} |}.

(** Lines 17-53: the state in which the pass over the events ends. *)
Definition run_pass (times : list Z) (bin_width start_t : Z)
    (include_zeros : bool) : result State :=
  st0 ←r init_state times bin_width start_t;
  bin_loop bin_width include_zeros times st0.

(** Lines 55-63: the zero-count bins up to an explicit [end_t]. *)
Definition extend_to_end (bin_width end_t : Z) (include_zeros : bool)
    (st : State) : result Buffer :=
  if include_zeros && negb (end_t =? UNSPECIFIED) then
    zero_bins (py_range (u64 (bin_start st + u64 bin_width)) end_t
                        bin_width) (buf st)
  else Ok (buf st).

(** Lines 17-63: the buffer when the last bin has been stored. *)
Definition fill_buffer (times : list Z) (bin_width start_t end_t : Z)
    (include_zeros : bool) : result Buffer :=
  st ←r run_pass times bin_width start_t include_zeros;
  extend_to_end bin_width end_t include_zeros st.

(** Lines 65-66: [chunks.append(chunk[:bin]); np.hstack(chunks)]. *)
Definition hstack (b : Buffer) : list Bin :=
  concat (chunks b ++ [take (Z.to_nat (bin b)) (chunk b)]).

(** [bin_photons(times, bin_width, start_t=-1, end_t=-1, include_zeros=True)] *)
Definition bin_photons (times : list Z) (bin_width start_t end_t : Z)
    (include_zeros : bool) : result (list Bin) :=
  b ←r fill_buffer times bin_width start_t end_t include_zeros;
  Ok (hstack b).

End BinPhotons.

(** ** The single-buffer variant

    The spec allows an implementation that appends every bin to one
    dynamically grown array. [Single] is the same algorithm, line for
    line, with the chunk bookkeeping replaced by an append to one list. *)

Module Single.

Record State : Type := mkState {
  bin_start : Z;
  bin_count : Z;
  out : list Bin
}.

Definition store (e : Bin) (out : list Bin) : result (list Bin) :=
  Ok (out ++ [e]).

Fixpoint zero_bins (js : list Z) (out : list Bin) : result (list Bin) :=
  match js with
  | [] => Ok out
  | j :: js' =>
      if ssize_max <? j then Raise OverflowError
      else out' ←r store {| start_t := u64 j; count := 0 |} out;
           zero_bins js' out'
  end.

Definition step (bin_width : Z) (include_zeros : bool)
    (st : State) (t : Z) : result State :=
  let bw := u64 bin_width in
  if u64 (bin_start st + bw) <=? t then
    let new_start := u64 (t / bw * bw) in
    o1 ←r store {| start_t := bin_start st; count := u16 (bin_count st) |}
                (out st);
    o2 ←r (if include_zeros
           then zero_bins (py_range (u64 (bin_start st + bw)) new_start
                                    bin_width) o1
           else Ok o1);
    Ok {| bin_start := new_start; bin_count := s16 (0 + 1); out := o2 |}
  else
    Ok {| bin_start := bin_start st;
          bin_count := s16 (bin_count st + 1);
          out := out st |}.

Fixpoint bin_loop (bin_width : Z) (include_zeros : bool)
    (times : list Z) (st : State) : result State :=
  match times with
  | [] => Ok st
  | t :: ts => st' ←r step bin_width include_zeros st t;
               bin_loop bin_width include_zeros ts st'
  end.

Definition init_state (times : list Z) (bin_width start_t : Z)
    : result State :=
  t0 ←r (if start_t =? UNSPECIFIED
         then match times !! 0%nat with
              | Some t => Ok t
              | None => Raise IndexError
              end
         else Ok start_t);
  if bin_width =? 0 then Raise ZeroDivisionError
  else
    Ok {| bin_start := u64 (t0 / u64 bin_width * u64 bin_width);
          bin_count := 0;
          out := [] |}.

Definition run_pass (times : list Z) (bin_width start_t : Z)
    (include_zeros : bool) : result State :=
  st0 ←r init_state times bin_width start_t;
  bin_loop bin_width include_zeros times st0.

Definition extend_to_end (bin_width end_t : Z) (include_zeros : bool)
    (st : State) : result (list Bin) :=
  if include_zeros && negb (end_t =? UNSPECIFIED) then
    zero_bins (py_range (u64 (bin_start st + u64 bin_width)) end_t
                        bin_width) (out st)
  else Ok (out st).

(** The single buffer is the result: nothing is left to concatenate. *)
Definition bin_photons (times : list Z) (bin_width start_t end_t : Z)
    (include_zeros : bool) : result (list Bin) :=
  st ←r run_pass times bin_width start_t include_zeros;
  extend_to_end bin_width end_t include_zeros st.

End Single.

(** ** The chunked buffer simulates the single buffer *)

(** What a buffer holds: the full chunks, then the written prefix of the
    current one. *)
Definition contents (b : Buffer) : list Bin :=
  concat (chunks b) ++ take (Z.to_nat (bin b)) (chunk b).

(** Every flushed chunk is full; the current chunk has [chunk_sz] entries
    and is never full. *)
Definition buffer_wf (b : Buffer) : Prop :=
  Z.of_nat (length (chunk b)) = chunk_sz
  ∧ 0 ≤ bin b < chunk_sz
  ∧ Forall (λ c, Z.of_nat (length c) = chunk_sz) (chunks b).

(** How many chunks have been flushed for the bins returned: one per
    [chunk_sz] entries, the remainder being the written prefix of the
    current chunk. *)
Definition chunk_accounting (b : Buffer) : Prop :=
  Forall (λ c, Z.of_nat (length c) = chunk_sz) (chunks b)
  ∧ 0 ≤ bin b < chunk_sz
  ∧ Z.of_nat (length (hstack b))
    = chunk_sz * Z.of_nat (length (chunks b)) + bin b.

Definition buffer_sim (b : Buffer) (o : list Bin) : Prop :=
  buffer_wf b ∧ contents b = o.

Definition state_sim (st : State) (st' : Single.State) : Prop :=
  bin_start st = Single.bin_start st' ∧
  bin_count st = Single.bin_count st' ∧
  buffer_sim (buf st) (Single.out st').

(** Two computations fail alike or return related values. *)
Inductive result_rel {A B} (R : A → B → Prop) : result A → result B → Prop :=
| rel_ok a b : R a b → result_rel R (Ok a) (Ok b)
| rel_raise e : result_rel R (Raise e) (Raise e).

(** ** Inputs without integer overflow

    For a positive [bin_width] and timestamps below [2 ^ 62] no sum or
    product of the function leaves the 64-bit range and no exception is
    raised; the pass is then a left fold of [next] over the events. *)

Definition safe_time (t : Z) : Prop := 0 ≤ t < 2 ^ 62.

Definition safe_width (bin_width : Z) : Prop := 0 < bin_width < 2 ^ 31.

(** An optional argument is either left at its default or a safe time. *)
Definition safe_opt (t : Z) : Prop := t = UNSPECIFIED ∨ safe_time t.

(** The timestamp the first bin is derived from: [start_t] when it is
    given, [times[0]] otherwise (and none for an empty array). *)
Definition first_time (times : list Z) (start_t : Z) : option Z :=
  if start_t =? UNSPECIFIED then times !! 0%nat else Some start_t.

(** [(t / bin_width) * bin_width] *)
Definition align (bin_width t : Z) : Z := t / bin_width * bin_width.

(** A bin synthesized for a gap. *)
Definition zero_bin (j : Z) : Bin := {| start_t := j; count := 0 |}.

(** One iteration of the loop when nothing overflows: [Single.step]
    without the reductions to 64 bits and without exceptions. *)
Definition next (bin_width : Z) (include_zeros : bool)
    (st : Single.State) (t : Z) : Single.State :=
  let B := Single.bin_start st in
  if B + bin_width <=? t then
    {| Single.bin_start := align bin_width t;
       Single.bin_count := 1;
       Single.out :=
         Single.out st ++
         {| start_t := B; count := u16 (Single.bin_count st) |} ::
         (if include_zeros
          then zero_bin <$> py_range (B + bin_width) (align bin_width t)
                                     bin_width
          else []) |}
  else
    {| Single.bin_start := B;
       Single.bin_count := s16 (Single.bin_count st + 1);
       Single.out := Single.out st |}.

(** The pass from the anchor [t0] and the bins it has emitted. *)
Definition pass (bin_width : Z) (include_zeros : bool) (t0 : Z)
    (times : list Z) : Single.State :=
  foldl (next bin_width include_zeros)
    {| Single.bin_start := align bin_width t0;
       Single.bin_count := 0;
       Single.out := [] |} times.

(** The zero-count bins appended after the pass. *)
Definition trailing (bin_width : Z) (include_zeros : bool) (end_t : Z)
    (st : Single.State) : list Bin :=
  if include_zeros && negb (end_t =? UNSPECIFIED)
  then zero_bin <$> py_range (Single.bin_start st + bin_width) end_t
                             bin_width
  else [].

(** The starts of the emitted bins ascend, are multiples of the bin width
    and lie between the anchor and the bin in progress. *)
Definition pass_ordered (bin_width t0 : Z) (st : Single.State) : Prop :=
  Single.bin_start st mod bin_width = 0 ∧
  align bin_width t0 ≤ Single.bin_start st ∧
  StronglySorted Z.lt (start_t <$> Single.out st) ∧
  Forall (λ s, align bin_width t0 ≤ s
               ∧ s + bin_width ≤ Single.bin_start st
               ∧ s mod bin_width = 0) (start_t <$> Single.out st).

(** Sum of the [count] fields. *)
Definition sum_counts (l : list Bin) : Z := foldr (λ b acc, count b + acc) 0 l.

(** Number of events of [times] inside [[lo, hi)]. *)
Definition events_within (lo hi : Z) (times : list Z) : Z :=
  Z.of_nat (length (filter (λ t, lo ≤ t < hi) times)).

(** Some content of uninitialised memory, for the evaluations at concrete
    inputs. *)
Definition junk : Bin := {| start_t := 3735928559; count := 48879 |}.

(** What the counter and the emitted counts hold after the events [ts]:
    the number of events of the bin, reduced to 16 bits. *)
Definition counts_faithful (bin_width : Z) (ts : list Z)
    (st : Single.State) : Prop :=
  let B := Single.bin_start st in
  Single.bin_count st = s16 (events_within B (B + bin_width) ts)
  ∧ Forall (λ b, count b
                 = u16 (events_within (start_t b) (start_t b + bin_width) ts))
           (Single.out st)
  ∧ Forall (λ t, t < B + bin_width) ts.

(** ** The events a bin counts *)

(** The event [t] is counted by the bin that starts at [s]: it lies inside
    the bin or, for the first bin (the one at [anchor]), before it; the
    pass never compares an event with the start of a bin, only with its
    end (line 29). *)
Definition held (bin_width anchor s t : Z) : Prop :=
  t < s + bin_width ∧ (s ≤ t ∨ s = anchor).

#[global] Instance held_dec bin_width anchor s t :
  Decision (held bin_width anchor s t).
Proof. unfold held. apply _. Defined.

(** Number of events of [times] counted by the bin that starts at [s]. *)
Definition events_held (bin_width anchor s : Z) (times : list Z) : Z :=
  Z.of_nat (length (filter (held bin_width anchor s) times)).



(** What the counter and the emitted counts hold after the sorted events
    [ts], whether or not events precede the first bin. *)
Definition counts_held (bin_width anchor : Z) (ts : list Z)
    (st : Single.State) : Prop :=
  let B := Single.bin_start st in
  Single.bin_count st = s16 (events_held bin_width anchor B ts)
  ∧ Forall (λ b, count b
                 = u16 (events_held bin_width anchor (start_t b) ts))
           (Single.out st)
  ∧ Forall (λ t, t < B + bin_width) ts.

(** ** The result in closed form *)

(** The record the function stores for the bin that starts at [s]: the
    number of events inside it, reduced to the 16 bits of [count]. *)
Definition bin_of (bin_width : Z) (times : list Z) (s : Z) : Bin :=
  {| start_t := s;
     count := events_within s (s + bin_width) times mod 2 ^ 16 |}.

(** The start of the bin in progress when the pass over sorted events
    ends: the bin of the last event, or the anchor bin without events. *)
Definition last_start (bin_width t0 : Z) (times : list Z) : Z :=
  align bin_width (default t0 (last times)).

(** ** The caller: the FRET histogram script

    [src/unnamed/part_001], lines 36-51, bins the timestamps of the
    acceptor and of the donor channel and cuts both traces to their
    common window before it adds them. The model takes the option
    [--time] at its default [None] (lines 42-45 are then skipped; they
    compute in floating point) and the bin width as the integer the
    [int] parameter of [bin_photons] receives. *)

Module Fret.

Inductive Error : Type :=
| BinPhotons (e : PyError)   (* an exception raised inside bin_photons *)
| ValueError.                (* amin or amax of an empty array, or two
                                arrays whose shapes do not broadcast *)

Inductive outcome (A : Type) : Type :=
| Done (a : A)
| Fail (e : Error).
Arguments Done {A} a.
Arguments Fail {A} e.

Definition obind {A B} (m : outcome A) (k : A → outcome B) : outcome B :=
  match m with
  | Done a => k a
  | Fail e => Fail e
  end.

Notation "x ←o m ; k" := (obind m (fun x => k))
  (at level 100, m at next level, right associativity,
   format "x  ←o  m ;  '/' k").

(** [numpy.amin] of a one-dimensional array. *)
Definition amin (a : list Z) : outcome Z :=
  match a with
  | [] => Fail ValueError
  | x :: a' => Done (foldl Z.min x a')
  end.

(** [numpy.amax] of a one-dimensional array. *)
Definition amax (a : list Z) : outcome Z :=
  match a with
  | [] => Fail ValueError
  | x :: a' => Done (foldl Z.max x a')
  end.

(** [b[logical_and(b['start_t'] >= lo, b['start_t'] < hi)]]: the entries
    selected by the boolean mask, in their order. *)
Definition select_window (lo hi : Z) (b : list Bin) : list Bin :=
  filter (λ e, lo ≤ start_t e ∧ start_t e < hi) b.

(** [x + y] on two one-dimensional [uint16] arrays: elementwise and
    modulo [2 ^ 16]; an array of one element is broadcast, other unequal
    lengths are refused. *)
Definition add_uint16 (x y : list Z) : outcome (list Z) :=
  if decide (length x = length y) then
    Done (zip_with (λ a b, u16 (a + b)) x y)
  else
    match x, y with
    | [a], _ => Done ((λ b, u16 (a + b)) <$> y)
    | _, [b] => Done ((λ a, u16 (a + b)) <$> x)
    | _, _ => Fail ValueError
    end.

(** The variables of the script after line 51. *)
Record Traces : Type := mkTraces {
  ba : list Bin;
  bd : list Bin;
  dt : Z;
  ctot : list Z
}.

(** Lines 39-51 on the two binned traces: [lo] and [hi] are the
    variables [start_t] and [end_t] of the script. *)
Definition align_traces (ba0 bd0 : list Bin) : outcome Traces :=
  min_a ←o amin (start_t <$> ba0);
  min_b ←o amin (start_t <$> bd0);
  let lo := Z.max min_a min_b in
  max_a ←o amax (start_t <$> ba0);
  max_b ←o amax (start_t <$> bd0);
  let hi := Z.min max_a max_b in
  let ba1 := select_window lo hi ba0 in
  let bd1 := select_window lo hi bd0 in
  let dt1 := u64 (hi - lo) in
  ctot1 ←o add_uint16 (count <$> ba1) (count <$> bd1);
  Done {| ba := ba1; bd := bd1; dt := dt1; ctot := ctot1 |}.

(** Lines 36-51: both channels are binned with the default arguments of
    [bin_photons], then aligned. *)
Definition binned_traces (uninit : Bin) (da dd : list Z) (bin_width : Z)
    : outcome Traces :=
  match bin_photons uninit da bin_width UNSPECIFIED UNSPECIFIED true with
  | Raise e => Fail (BinPhotons e)
  | Ok ba0 =>
      match bin_photons uninit dd bin_width UNSPECIFIED UNSPECIFIED true with
      | Raise e => Fail (BinPhotons e)
      | Ok bd0 => align_traces ba0 bd0
      end
  end.

End Fret.

(** ** Proofs *)

Lemma result_rel_bind {A B A' B'} (R : A → B → Prop) (R' : A' → B' → Prop)
    m m' (k : A → result A') (k' : B → result B') :
  result_rel R m m' →
  (∀ a b, R a b → result_rel R' (k a) (k' b)) →
  result_rel R' (bind m k) (bind m' k').
Proof.
  intros Hm Hk. destruct Hm as [a b Hab | e]; simpl.
  - by apply Hk.
  - constructor.
Qed.

Section Simulation.

Variable uninit : Bin.

Lemma np_empty_length : Z.of_nat (length (np_empty uninit)) = chunk_sz.
Proof. unfold np_empty. rewrite length_replicate. by vm_compute. Qed.

Lemma empty_buffer_sim :
  buffer_sim {| chunks := []; chunk := np_empty uninit; bin := 0 |} [].
Proof.
  split; [|done]. split; [apply np_empty_length|].
  split; [by vm_compute|constructor].
Qed.

Lemma store_sim e b o :
  buffer_sim b o →
  result_rel buffer_sim (store uninit e b) (Single.store e o).
Proof.
  intros [(Hlen & Hbin & Hfull) <-]. unfold store, Single.store.
  assert (Hu : u32 (bin b + 1) = bin b + 1).
  { unfold u32. apply Z.mod_small. unfold chunk_sz in Hbin. lia. }
  destruct (Z.ltb_spec (bin b) (Z.of_nat (length (chunk b)))); [|lia].
  rewrite Hu.
  assert (Htake : take (S (Z.to_nat (bin b)))
                    (<[Z.to_nat (bin b) := e]> (chunk b))
                  = take (Z.to_nat (bin b)) (chunk b) ++ [e]).
  { erewrite take_S_r; [|apply list_lookup_insert_eq; lia].
    by rewrite take_insert_ge. }
  destruct (Z.eqb_spec (bin b + 1) chunk_sz) as [Hlast | Hroom];
    constructor; (split; [split; [|split]|]); cbn [chunks chunk bin].
  - apply np_empty_length.
  - by vm_compute.
  - apply Forall_app. split; [done|].
    constructor; [by rewrite length_insert|constructor].
  - unfold contents. cbn [chunks chunk bin]. rewrite concat_app.
    change (take (Z.to_nat 0) (np_empty uninit)) with (@nil Bin).
    cbn [concat]. rewrite !app_nil_r, <- app_assoc. f_equal.
    rewrite <- Htake. apply eq_sym, take_ge. rewrite length_insert. lia.
  - by rewrite length_insert.
  - lia.
  - done.
  - unfold contents. cbn [chunks chunk bin]. rewrite <- app_assoc. f_equal.
    by rewrite Z2Nat.inj_add, Nat.add_1_r by lia.
Qed.

Lemma zero_bins_sim js : ∀ b o,
  buffer_sim b o →
  result_rel buffer_sim (zero_bins uninit js b) (Single.zero_bins js o).
Proof.
  induction js as [|j js IH]; intros b o Hsim;
    cbn [zero_bins Single.zero_bins].
  - by constructor.
  - destruct (ssize_max <? j); [constructor|].
    eapply result_rel_bind; [by apply store_sim|]. apply IH.
Qed.

Lemma step_sim bw iz st st' t :
  state_sim st st' →
  result_rel state_sim (step uninit bw iz st t) (Single.step bw iz st' t).
Proof.
  intros (Hs & Hc & Hb). unfold step, Single.step. rewrite <- Hs, <- Hc.
  destruct (u64 (bin_start st + u64 bw) <=? t).
  - eapply result_rel_bind; [by apply store_sim|]. intros b1 o1 H1.
    eapply result_rel_bind with (R := buffer_sim).
    + destruct iz; [by apply zero_bins_sim|by constructor].
    + intros b2 o2 H2. by constructor.
  - by constructor.
Qed.

Lemma bin_loop_sim bw iz times : ∀ st st',
  state_sim st st' →
  result_rel state_sim (bin_loop uninit bw iz times st)
                       (Single.bin_loop bw iz times st').
Proof.
  induction times as [|t ts IH]; intros st st' Hsim;
    cbn [bin_loop Single.bin_loop].
  - by constructor.
  - eapply result_rel_bind; [by apply step_sim|]. apply IH.
Qed.

Lemma init_state_sim times bw s :
  result_rel state_sim (init_state uninit times bw s)
                       (Single.init_state times bw s).
Proof.
  unfold init_state, Single.init_state.
  eapply result_rel_bind with (R := eq).
  - destruct (s =? UNSPECIFIED); [|by constructor].
    destruct (times !! 0%nat); by constructor.
  - intros t0 ? <-. destruct (bw =? 0); constructor.
    repeat split; try done; apply empty_buffer_sim.
Qed.

Lemma run_pass_sim times bw s iz :
  result_rel state_sim (run_pass uninit times bw s iz)
                       (Single.run_pass times bw s iz).
Proof.
  unfold run_pass, Single.run_pass.
  eapply result_rel_bind; [apply init_state_sim|]. apply bin_loop_sim.
Qed.

Lemma extend_to_end_sim bw e iz st st' :
  state_sim st st' →
  result_rel buffer_sim (extend_to_end uninit bw e iz st)
                        (Single.extend_to_end bw e iz st').
Proof.
  intros (Hs & _ & Hb). unfold extend_to_end, Single.extend_to_end.
  rewrite <- Hs.
  destruct (iz && negb (e =? UNSPECIFIED)); [by apply zero_bins_sim|].
  by constructor.
Qed.

Lemma hstack_contents b : hstack b = contents b.
Proof.
  unfold hstack, contents. rewrite concat_app. simpl. by rewrite app_nil_r.
Qed.

Lemma fill_buffer_sim times bw s e iz :
  result_rel buffer_sim (fill_buffer uninit times bw s e iz)
                        (Single.bin_photons times bw s e iz).
Proof.
  unfold fill_buffer, Single.bin_photons.
  eapply result_rel_bind; [apply run_pass_sim|]. intros st st' Hst.
  by apply extend_to_end_sim.
Qed.

(** The chunked function and the single-buffer function agree on every
    input, results and exceptions alike. *)
Lemma bin_photons_single times bw s e iz :
  bin_photons uninit times bw s e iz = Single.bin_photons times bw s e iz.
Proof.
  unfold bin_photons.
  destruct (fill_buffer_sim times bw s e iz) as [b o [_ Hb] | err];
    cbn [bind]; [|done].
  by rewrite hstack_contents, Hb.
Qed.

Lemma length_concat_full (cs : list (list Bin)) :
  Forall (λ c, Z.of_nat (length c) = chunk_sz) cs →
  Z.of_nat (length (concat cs)) = chunk_sz * Z.of_nat (length cs).
Proof.
  induction 1 as [|c cs Hc _ IH]; cbn [concat length]; [lia|].
  rewrite length_app. lia.
Qed.

(** A well-formed buffer has flushed one chunk per [chunk_sz] bins. *)
Lemma buffer_wf_accounting b : buffer_wf b → chunk_accounting b.
Proof.
  intros (Hlen & Hbin & Hfull). split; [done|]. split; [done|].
  rewrite hstack_contents. unfold contents.
  rewrite length_app, length_take, Nat2Z.inj_add, length_concat_full by done.
  lia.
Qed.

Lemma fill_buffer_accounting times bw s e iz :
  match fill_buffer uninit times bw s e iz with
  | Ok b => chunk_accounting b
  | Raise _ => True
  end.
Proof.
  destruct (fill_buffer_sim times bw s e iz) as [b o [Hwf _] | err]; [|done].
  by apply buffer_wf_accounting.
Qed.

End Simulation.

(** What [np.empty] left in the chunks never reaches the result. *)
Lemma bin_photons_uninit_irrelevant u u' times bw s e iz :
  bin_photons u times bw s e iz = bin_photons u' times bw s e iz.
Proof. by rewrite !bin_photons_single. Qed.

Section Arith.

Lemma u64_small x : 0 ≤ x < 2 ^ 64 → u64 x = x.
Proof. intros. by apply Z.mod_small. Qed.

Lemma u16_s16 x : u16 (s16 x) = u16 x.
Proof.
  unfold u16, s16.
  replace ((x + 2 ^ 15) mod 2 ^ 16 - 2 ^ 15)
    with (x + 2 ^ 15 - 2 ^ 15 - 2 ^ 16 * ((x + 2 ^ 15) / 2 ^ 16)).
  - replace (x + 2 ^ 15 - 2 ^ 15 - 2 ^ 16 * ((x + 2 ^ 15) / 2 ^ 16))
      with (x + (- ((x + 2 ^ 15) / 2 ^ 16)) * 2 ^ 16) by ring.
    apply Z_mod_plus_full.
  - rewrite (Z.mod_eq (x + 2 ^ 15) (2 ^ 16)) by lia. ring.
Qed.

Lemma s16_small x : - 2 ^ 15 ≤ x < 2 ^ 15 → s16 x = x.
Proof. intros. unfold s16. rewrite Z.mod_small; lia. Qed.

Lemma align_floor bw t : 0 < bw → align bw t ≤ t.
Proof. intros. unfold align. rewrite Z.mul_comm. apply Z.mul_div_le. lia. Qed.

Lemma align_le bw t : 0 < bw → 0 ≤ t → 0 ≤ align bw t ≤ t.
Proof.
  intros Hbw Ht. split; [|by apply align_floor].
  unfold align. apply Z.mul_nonneg_nonneg; [apply Z.div_pos|]; lia.
Qed.

Lemma align_gt bw t : 0 < bw → t < align bw t + bw.
Proof.
  intros Hbw. unfold align.
  pose proof (Z.mod_pos_bound t bw Hbw).
  rewrite (Z.div_mod t bw) at 1 by lia. lia.
Qed.

Lemma align_mod bw t : 0 < bw → align bw t mod bw = 0.
Proof. intros. unfold align. apply Z_mod_mult. Qed.

(** An event beyond the end of an aligned bin lies in a later bin. *)
Lemma align_advance bw B t :
  0 < bw → B mod bw = 0 → B + bw ≤ t → B + bw ≤ align bw t.
Proof.
  intros Hbw HB Ht. unfold align.
  apply Z.mod_divide in HB as [k ->]; [|lia].
  assert (k + 1 ≤ t / bw); [|nia].
  apply Z.div_le_lower_bound; lia.
Qed.

Lemma safe_width_u64 bw : safe_width bw → u64 bw = bw.
Proof. intros [? ?]. apply u64_small. lia. Qed.

End Arith.

Section Range.

Lemma py_range_elem lo hi step j :
  0 < step → j ∈ py_range lo hi step →
  lo ≤ j < hi ∧ (j - lo) mod step = 0.
Proof.
  intros Hstep Hj. unfold py_range in Hj.
  apply list_elem_of_fmap in Hj as (k & -> & Hk).
  apply elem_of_seqZ in Hk. unfold range_len in Hk.
  destruct (Z.ltb_spec 0 step); [|lia].
  replace (lo + k * step - lo) with (k * step) by ring.
  split; [|apply Z_mod_mult].
  destruct (Z.ltb_spec lo hi); [|lia].
  assert (k ≤ (hi - 1 - lo) / step) by lia.
  assert (step * ((hi - 1 - lo) / step) ≤ hi - 1 - lo)
    by (apply Z.mul_div_le; lia).
  nia.
Qed.

End Range.

Section SafePass.

Variables (bin_width : Z) (include_zeros : bool).
Hypothesis Hbw : safe_width bin_width.

Lemma safe_time_specified t : safe_time t → (t =? UNSPECIFIED) = false.
Proof. intros [? ?]. apply Z.eqb_neq. unfold UNSPECIFIED. lia. Qed.

Lemma zero_bins_ok js out :
  Forall (λ j, 0 ≤ j ≤ ssize_max) js →
  Single.zero_bins js out = Ok (out ++ (zero_bin <$> js)).
Proof.
  intros Hjs. revert out.
  induction Hjs as [|j js [Hj0 Hj] _ IH]; intros out;
    cbn [Single.zero_bins].
  - by rewrite app_nil_r.
  - destruct (Z.ltb_spec ssize_max j); [lia|].
    unfold Single.store. cbn [bind]. rewrite IH, <- app_assoc.
    rewrite u64_small by (unfold ssize_max in Hj; lia). done.
Qed.

Lemma range_zero_bins_ok lo hi out :
  0 ≤ lo → hi ≤ 2 ^ 62 →
  Single.zero_bins (py_range lo hi bin_width) out
  = Ok (out ++ (zero_bin <$> py_range lo hi bin_width)).
Proof.
  intros Hlo Hhi. apply zero_bins_ok, Forall_forall. intros j Hj.
  apply py_range_elem in Hj as [? _]; [|apply Hbw].
  unfold ssize_max. lia.
Qed.

Lemma step_next st t :
  safe_time (Single.bin_start st) → safe_time t →
  Single.step bin_width include_zeros st t
  = Ok (next bin_width include_zeros st t).
Proof.
  intros [HB0 HB] [Ht0 Ht]. destruct Hbw as [Hw0 Hw].
  unfold Single.step, next. rewrite (safe_width_u64 _ Hbw).
  rewrite (u64_small (_ + _)) by lia.
  destruct (Z.leb_spec (Single.bin_start st + bin_width) t); [|done].
  pose proof (align_le bin_width t Hw0 Ht0) as [Ha0 Ha].
  fold (align bin_width t). rewrite (u64_small (align _ _)) by lia.
  unfold Single.store. cbn [bind].
  destruct include_zeros; [|done].
  rewrite range_zero_bins_ok by lia. cbn [bind].
  by rewrite <- app_assoc.
Qed.

Lemma next_safe st t :
  safe_time (Single.bin_start st) → safe_time t →
  safe_time (Single.bin_start (next bin_width include_zeros st t)).
Proof.
  intros HB [Ht0 Ht]. unfold next.
  destruct (_ <=? _); cbn [Single.bin_start]; [|done].
  destruct Hbw as [Hw0 _].
  pose proof (align_le bin_width t Hw0 Ht0). unfold safe_time. lia.
Qed.

Lemma bin_loop_run times : ∀ st,
  Forall safe_time times → safe_time (Single.bin_start st) →
  Single.bin_loop bin_width include_zeros times st
  = Ok (foldl (next bin_width include_zeros) st times).
Proof.
  induction times as [|t ts IH]; intros st Hts Hst;
    cbn [Single.bin_loop foldl]; [done|].
  apply Forall_cons in Hts as [Ht Hts].
  rewrite step_next by done. cbn [bind].
  apply IH; [done|]. by apply next_safe.
Qed.

Lemma pass_safe t0 times :
  safe_time t0 → Forall safe_time times →
  safe_time (Single.bin_start (pass bin_width include_zeros t0 times)).
Proof.
  intros Ht0 Hts. unfold pass.
  set (st0 := Single.mkState _ _ _).
  assert (Hst0 : safe_time (Single.bin_start st0)).
  { destruct Hbw as [Hw0 _], Ht0 as [H0 H1].
    pose proof (align_le bin_width t0 Hw0 H0).
    unfold st0, safe_time. cbn [Single.bin_start]. lia. }
  clearbody st0. revert st0 Hst0.
  induction Hts as [|t ts Ht _ IH]; intros st0 Hst0; cbn [foldl]; [done|].
  apply IH. by apply next_safe.
Qed.

Lemma first_time_safe times start_t t0 :
  Forall safe_time times → safe_opt start_t →
  first_time times start_t = Some t0 → safe_time t0.
Proof.
  intros Hts Hs. unfold first_time.
  destruct Hs as [-> | Hs].
  - change (UNSPECIFIED =? UNSPECIFIED) with true. cbn iota. intros H0.
    eapply Forall_lookup_1; eauto.
  - rewrite safe_time_specified by done. by intros [= <-].
Qed.

Lemma init_state_safe times start_t t0 :
  Forall safe_time times → safe_opt start_t →
  first_time times start_t = Some t0 →
  Single.init_state times bin_width start_t
  = Ok {| Single.bin_start := align bin_width t0;
          Single.bin_count := 0;
          Single.out := [] |}.
Proof.
  intros Hts Hs Hfirst.
  pose proof (first_time_safe _ _ _ Hts Hs Hfirst) as [H0 H1].
  pose proof (align_le bin_width t0 (proj1 Hbw) H0).
  unfold Single.init_state. unfold first_time in Hfirst.
  destruct (start_t =? UNSPECIFIED);
    [rewrite Hfirst|injection Hfirst as ->]; cbn [bind];
    (destruct (Z.eqb_spec bin_width 0) as [-> | _];
       [by destruct Hbw; lia|]);
    rewrite (safe_width_u64 _ Hbw); fold (align bin_width t0);
    by rewrite u64_small by lia.
Qed.

Lemma run_pass_safe times start_t t0 :
  Forall safe_time times → safe_opt start_t →
  first_time times start_t = Some t0 →
  Single.run_pass times bin_width start_t include_zeros
  = Ok (pass bin_width include_zeros t0 times).
Proof.
  intros Hts Hs Hfirst. unfold Single.run_pass.
  rewrite (init_state_safe _ _ _ Hts Hs Hfirst). cbn [bind].
  apply bin_loop_run; [done|].
  pose proof (first_time_safe _ _ _ Hts Hs Hfirst) as [H0 H1].
  pose proof (align_le bin_width t0 (proj1 Hbw) H0).
  unfold safe_time. cbn [Single.bin_start]. lia.
Qed.

Lemma extend_to_end_safe end_t st :
  safe_time (Single.bin_start st) → safe_opt end_t →
  Single.extend_to_end bin_width end_t include_zeros st
  = Ok (Single.out st ++ trailing bin_width include_zeros end_t st).
Proof.
  intros [HB0 HB] He. unfold Single.extend_to_end, trailing.
  destruct (include_zeros && negb (end_t =? UNSPECIFIED)) eqn:Hc.
  - destruct He as [-> | [He0 He]]; [by rewrite andb_false_r in Hc|].
    rewrite (safe_width_u64 _ Hbw). destruct Hbw as [Hw0 Hw].
    rewrite u64_small by lia. apply range_zero_bins_ok; lia.
  - by rewrite app_nil_r.
Qed.

(** On safe inputs the function returns the bins of the pass followed
    by the trailing zero-count bins. *)
Lemma bin_photons_safe uninit times start_t end_t t0 :
  Forall safe_time times → safe_opt start_t → safe_opt end_t →
  first_time times start_t = Some t0 →
  bin_photons uninit times bin_width start_t end_t include_zeros
  = Ok (Single.out (pass bin_width include_zeros t0 times)
        ++ trailing bin_width include_zeros end_t
             (pass bin_width include_zeros t0 times)).
Proof.
  intros Hts Hs He Hfirst. rewrite bin_photons_single.
  unfold Single.bin_photons.
  rewrite (run_pass_safe _ _ _ Hts Hs Hfirst). cbn [bind].
  apply extend_to_end_safe; [|done].
  apply pass_safe; [|done]. exact (first_time_safe _ _ _ Hts Hs Hfirst).
Qed.

End SafePass.

(** ** Induction over the pass *)

Section PassInduction.

Variables (bin_width : Z) (include_zeros : bool) (t0 : Z).

Lemma pass_snoc ts t :
  pass bin_width include_zeros t0 (ts ++ [t])
  = next bin_width include_zeros (pass bin_width include_zeros t0 ts) t.
Proof. unfold pass. by rewrite foldl_app. Qed.

(** A property of the processed events and the state reached holds at
    the end of the pass when it holds before the first event and every
    event preserves it. *)
Lemma pass_ind (times : list Z) (P : list Z → Single.State → Prop) :
  P [] (pass bin_width include_zeros t0 []) →
  (∀ ts t, ts ++ [t] `prefix_of` times →
     P ts (pass bin_width include_zeros t0 ts) →
     P (ts ++ [t])
       (next bin_width include_zeros (pass bin_width include_zeros t0 ts) t)) →
  P times (pass bin_width include_zeros t0 times).
Proof.
  intros Hinit Hstep.
  assert (H : ∀ ts, ts `prefix_of` times →
                    P ts (pass bin_width include_zeros t0 ts)).
  { induction ts as [|t ts IH] using rev_ind; intros Hpre; [done|].
    rewrite pass_snoc. apply Hstep; [done|].
    apply IH. etrans; [|exact Hpre]. by apply prefix_app_r. }
  by apply H.
Qed.

End PassInduction.

(** ** Order and alignment of the emitted bins *)

Section Order.

Variables (bin_width : Z) (include_zeros : bool) (t0 : Z).
Hypothesis Hbw : 0 < bin_width.

Lemma seq_sorted len : ∀ start, StronglySorted lt (seq start len).
Proof.
  induction len as [|len IH]; intros start; cbn [seq]; constructor; [done|].
  apply Forall_forall. intros x Hx%list_elem_of_In%in_seq. lia.
Qed.

Lemma py_range_sorted lo hi : StronglySorted Z.lt (py_range lo hi bin_width).
Proof.
  unfold py_range, seqZ. rewrite <- list_fmap_compose.
  eapply StronglySorted_fmap; [|apply seq_sorted].
  intros x y Hxy. cbn. nia.
Qed.

(** The starts of the zero-count bins between two aligned bins: they
    ascend, are multiples of the bin width and lie between the two. *)
Lemma zeros_ordered B hi :
  B mod bin_width = 0 → hi mod bin_width = 0 →
  StronglySorted Z.lt (py_range (B + bin_width) hi bin_width)
  ∧ Forall (λ j, B + bin_width ≤ j ∧ j + bin_width ≤ hi
                 ∧ j mod bin_width = 0)
           (py_range (B + bin_width) hi bin_width).
Proof.
  intros HB Hhi. split; [apply py_range_sorted|].
  apply Forall_forall.
  intros j [Hlt Hmod]%py_range_elem; [|done].
  apply Z.mod_divide in HB as [b ->]; [|lia].
  apply Z.mod_divide in Hhi as [h ->]; [|lia].
  apply Z.mod_divide in Hmod as [k Hk]; [|lia].
  assert (j = (k + b + 1) * bin_width) as -> by lia.
  split; [lia|]. split; [|apply Z_mod_mult].
  assert (k + b + 1 < h) by nia. nia.
Qed.

Lemma fmap_start_zero_bin (js : list Z) : start_t <$> (zero_bin <$> js) = js.
Proof. rewrite <- list_fmap_compose. apply list_fmap_id. Qed.

Lemma next_ordered st t :
  pass_ordered bin_width t0 st →
  pass_ordered bin_width t0 (next bin_width include_zeros st t).
Proof.
  intros (HB & Ha & Hs & Hl). unfold next.
  destruct (Z.leb_spec (Single.bin_start st + bin_width) t) as [Hle|];
    [|done].
  pose proof (align_advance _ _ _ Hbw HB Hle) as Hadv.
  pose proof (align_mod bin_width t Hbw) as Hmod.
  destruct (zeros_ordered (Single.bin_start st) (align bin_width t)
              HB Hmod) as [Hzs Hzl].
  assert (Hz : ∀ l, l = [] ∨ l = py_range (Single.bin_start st + bin_width)
                                    (align bin_width t) bin_width →
               StronglySorted Z.lt l ∧
               Forall (λ j, Single.bin_start st + bin_width ≤ j
                            ∧ j + bin_width ≤ align bin_width t
                            ∧ j mod bin_width = 0) l).
  { intros l [-> | ->]; [repeat constructor|done]. }
  unfold pass_ordered. cbn [Single.bin_start Single.out].
  rewrite fmap_app, fmap_cons. cbn [start_t].
  set (zs := start_t <$> (if include_zeros then _ else _)).
  destruct (Hz zs) as (Hz1 & Hz2).
  { unfold zs. destruct include_zeros; [right|by left].
    apply fmap_start_zero_bin. }
  rewrite Forall_forall in Hl. rewrite Forall_forall in Hz2.
  repeat split; [done|lia| |].
  - apply StronglySorted_app_2; [|done|].
    + intros x y Hx Hy. specialize (Hl x Hx).
      apply elem_of_cons in Hy as [-> | Hy]; [lia|].
      specialize (Hz2 y Hy). lia.
    + constructor; [done|].
      apply Forall_forall. intros y Hy. specialize (Hz2 y Hy). lia.
  - apply Forall_forall. intros x Hx.
    apply elem_of_app in Hx as [Hx | Hx]; [specialize (Hl x Hx); lia|].
    apply elem_of_cons in Hx as [-> | Hx]; [lia|].
    specialize (Hz2 x Hx). lia.
Qed.

Lemma pass_is_ordered times :
  pass_ordered bin_width t0 (pass bin_width include_zeros t0 times).
Proof.
  apply (pass_ind _ _ _ times (λ _ st, pass_ordered bin_width t0 st)).
  - unfold pass, pass_ordered. cbn.
    split; [by apply align_mod|]. split; [lia|]. split; constructor.
  - intros ts t _. apply next_ordered.
Qed.

End Order.

(** ** Where the bin in progress and the first emitted bin come from *)

Section Origin.

Variables (bin_width : Z) (include_zeros : bool) (t0 : Z).

(** The bin in progress is the anchor bin or the bin of an event. *)
Lemma pass_start_origin times :
  let st := pass bin_width include_zeros t0 times in
  Single.bin_start st = align bin_width t0
  ∨ ∃ t, t ∈ times ∧ Single.bin_start st = align bin_width t.
Proof.
  apply (pass_ind _ _ _ times (λ ts st,
    Single.bin_start st = align bin_width t0
    ∨ ∃ t, t ∈ ts ∧ Single.bin_start st = align bin_width t)).
  - by left.
  - intros ts t _ IH. unfold next. destruct (_ <=? _); cbn.
    + right. exists t. split; [|done]. apply elem_of_app. right.
      by apply list_elem_of_singleton.
    + destruct IH as [IH | (t' & Hin & IH)]; [by left|].
      right. exists t'. split; [|done]. apply elem_of_app. by left.
Qed.

(** Nothing is emitted while every event stays below the end of the
    anchor bin; once an event passes it, the anchor bin heads the
    output for good. *)
Lemma pass_first_bin times :
  let st := pass bin_width include_zeros t0 times in
  (Single.out st = [] ∧ Single.bin_start st = align bin_width t0
   ∧ Forall (λ t, t < align bin_width t0 + bin_width) times)
  ∨ (∃ c rest,
       Single.out st = {| start_t := align bin_width t0; count := c |} :: rest
       ∧ Exists (λ t, align bin_width t0 + bin_width ≤ t) times).
Proof.
  apply (pass_ind _ _ _ times (λ ts st,
    (Single.out st = [] ∧ Single.bin_start st = align bin_width t0
     ∧ Forall (λ t, t < align bin_width t0 + bin_width) ts)
    ∨ (∃ c rest,
         Single.out st
         = {| start_t := align bin_width t0; count := c |} :: rest
         ∧ Exists (λ t, align bin_width t0 + bin_width ≤ t) ts))).
  - left. by repeat split.
  - intros ts t _ IH. unfold next.
    destruct (Z.leb_spec (Single.bin_start (pass bin_width include_zeros
                                                 t0 ts) + bin_width) t)
      as [Hle | Hlt]; cbn [Single.out Single.bin_start].
    + right. destruct IH as [(-> & HB & Hall) | (c & rest & -> & Hex)].
      * rewrite HB in *. eexists _, _. split; [reflexivity|].
        apply Exists_app. right. by constructor.
      * eexists _, _. split; [reflexivity|]. apply Exists_app. by left.
    + destruct IH as [(Hout & HB & Hall) | (c & rest & Hout & Hex)].
      * left. repeat split; [done..|].
        apply Forall_app. split; [done|]. constructor; [lia|done].
      * right. exists c, rest. split; [done|]. apply Exists_app. by left.
Qed.

End Origin.



(** ** Counts *)

Section Counts.

Variables (bin_width : Z) (include_zeros : bool) (t0 : Z).

Lemma sum_counts_cons b l : sum_counts (b :: l) = count b + sum_counts l.
Proof. reflexivity. Qed.

Lemma sum_counts_app l1 l2 :
  sum_counts (l1 ++ l2) = sum_counts l1 + sum_counts l2.
Proof.
  induction l1 as [|b l1 IH]; [done|].
  rewrite <- app_comm_cons, !sum_counts_cons, IH. lia.
Qed.

Lemma sum_counts_zero_bins (js : list Z) : sum_counts (zero_bin <$> js) = 0.
Proof.
  induction js as [|j js IH]; [done|].
  by rewrite fmap_cons, sum_counts_cons, IH.
Qed.

Lemma sum_counts_trailing e st :
  sum_counts (trailing bin_width include_zeros e st) = 0.
Proof.
  unfold trailing. destruct (_ && _); [|done]. apply sum_counts_zero_bins.
Qed.

Lemma s16_add_l x y : s16 (s16 x + y) = s16 (x + y).
Proof.
  unfold s16 at 2. rewrite (Z.mod_eq (x + 2 ^ 15) (2 ^ 16)) by lia.
  unfold s16. f_equal.
  replace (x + 2 ^ 15 - 2 ^ 16 * ((x + 2 ^ 15) / 2 ^ 16) - 2 ^ 15 + y
           + 2 ^ 15)
    with (x + y + 2 ^ 15 + (- ((x + 2 ^ 15) / 2 ^ 16)) * 2 ^ 16) by ring.
  apply Z_mod_plus_full.
Qed.

Lemma u16_small x : 0 ≤ x < 2 ^ 16 → u16 x = x.
Proof. intros. by apply Z.mod_small. Qed.

Lemma prefix_length_le (ts times : list Z) :
  ts `prefix_of` times → (length ts ≤ length times)%nat.
Proof. intros [k ->]. rewrite length_app. lia. Qed.

(** Without zero-filling, with fewer than [2 ^ 16] events and a first
    event that does not lie beyond the anchor bin, every emitted bin
    has counted an event. *)
Lemma pass_counts_nonzero times :
  include_zeros = false →
  Z.of_nat (length times) < 2 ^ 16 →
  (∀ t, head times = Some t → t < align bin_width t0 + bin_width) →
  Forall (λ b, count b ≠ 0)
         (Single.out (pass bin_width include_zeros t0 times)).
Proof.
  intros Hiz Hlen Hhead.
  enough (H : ∃ n, Single.bin_count (pass bin_width include_zeros t0 times)
                   = s16 n
              ∧ 0 ≤ n ≤ Z.of_nat (length times)
              ∧ (times ≠ [] → 1 ≤ n)
              ∧ Forall (λ b, count b ≠ 0)
                  (Single.out (pass bin_width include_zeros t0 times)))
    by (by destruct H as (? & _ & _ & _ & ?)).
  apply (pass_ind _ _ _ times (λ ts st,
    ∃ n, Single.bin_count st = s16 n
         ∧ 0 ≤ n ≤ Z.of_nat (length ts)
         ∧ (ts ≠ [] → 1 ≤ n)
         ∧ Forall (λ b, count b ≠ 0) (Single.out st))).
  - exists 0. by repeat split.
  - intros ts t Hpre (n & Hc & Hn & Hpos & Hout).
    pose proof (prefix_length_le _ _ Hpre) as Hle.
    rewrite length_app in *. cbn [length] in *.
    unfold next.
    destruct (Z.leb_spec (Single.bin_start (pass bin_width include_zeros
                                                 t0 ts) + bin_width) t)
      as [Hsw | Hstay]; cbn [Single.out Single.bin_count].
    + exists 1. split; [done|]. split; [lia|]. split; [done|].
      apply Forall_app. split; [done|].
      constructor; [|by rewrite Hiz]. cbn [count].
      destruct ts as [|t' ts].
      * exfalso. destruct Hpre as [k Hk]. cbn in Hsw.
        specialize (Hhead t). rewrite Hk in Hhead. cbn in Hhead.
        specialize (Hhead eq_refl). lia.
      * rewrite Hc, u16_s16, u16_small; [|lia].
        assert (1 ≤ n) by (by apply Hpos). lia.
    + exists (n + 1). rewrite Hc, s16_add_l.
      split; [done|]. split; [lia|]. split; [lia|done].
Qed.

End Counts.

(** ** The stored count of a bin and the events inside it *)

Section TrueCounts.

Variables (bin_width : Z) (include_zeros : bool) (t0 : Z).
Hypothesis Hbw : 0 < bin_width.

Lemma events_within_snoc lo hi ts t :
  events_within lo hi (ts ++ [t])
  = events_within lo hi ts + (if decide (lo ≤ t < hi) then 1 else 0).
Proof.
  unfold events_within. rewrite filter_app, length_app.
  destruct (decide (lo ≤ t < hi)).
  - rewrite filter_cons_True by done. cbn. lia.
  - rewrite filter_cons_False by done. cbn. lia.
Qed.

Lemma events_within_snoc_out lo hi ts t :
  ¬ (lo ≤ t < hi) → events_within lo hi (ts ++ [t]) = events_within lo hi ts.
Proof.
  intros. rewrite events_within_snoc.
  destruct (decide (lo ≤ t < hi)); [done|lia].
Qed.

Lemma events_within_snoc_in lo hi ts t :
  lo ≤ t < hi → events_within lo hi (ts ++ [t]) = events_within lo hi ts + 1.
Proof.
  intros. rewrite events_within_snoc.
  destruct (decide (lo ≤ t < hi)); [done|lia].
Qed.

Lemma events_within_none lo hi ts :
  Forall (λ t, ¬ (lo ≤ t < hi)) ts → events_within lo hi ts = 0.
Proof.
  intros H. unfold events_within.
  induction H as [|t ts Ht _ IH]; [done|].
  by rewrite filter_cons_False.
Qed.

Lemma pass_counts_faithful times :
  Sorted Z.le times →
  Forall (λ t, align bin_width t0 ≤ t) times →
  counts_faithful bin_width times (pass bin_width include_zeros t0 times).
Proof.
  intros Hsorted%Sorted_StronglySorted Hanchor; [|apply _].
  apply (pass_ind _ _ _ times (counts_faithful bin_width)).
  { repeat split; constructor. }
  intros ts t Hpre (Hc & Hout & Hts).
  set (st := pass bin_width include_zeros t0 ts) in *.
  set (B := Single.bin_start st) in *.
  (* facts about the state reached and the next event *)
  destruct (pass_is_ordered bin_width include_zeros t0 Hbw ts)
    as (HB & _ & _ & Hl).
  fold st B in HB, Hl.
  assert (Hsnoc : StronglySorted Z.le (ts ++ [t])).
  { destruct Hpre as [k ->]. by apply StronglySorted_app_1_l in Hsorted. }
  assert (Hmax : ∀ x, x ∈ ts → x ≤ t).
  { intros x Hx. eapply StronglySorted_app_1_elem_of; [done..|].
    by apply list_elem_of_singleton. }
  assert (Hta : align bin_width t0 ≤ t).
  { rewrite Forall_forall in Hanchor. apply Hanchor.
    destruct Hpre as [k ->]. rewrite !elem_of_app, list_elem_of_singleton.
    auto. }
  assert (HBt : B ≤ t).
  { destruct (pass_start_origin bin_width include_zeros t0 ts)
      as [HB0 | (t' & Hin & HB0)]; fold st B in HB0; [lia|].
    specialize (Hmax t' Hin).
    pose proof (align_floor bin_width t' Hbw). lia. }
  assert (Hold : ∀ b, b ∈ Single.out st → start_t b + bin_width ≤ B).
  { intros b Hb. rewrite Forall_forall in Hl.
    destruct (Hl (start_t b)) as (_ & ? & _); [|done].
    apply list_elem_of_fmap. by exists b. }
  rewrite Forall_forall in Hout. rewrite Forall_forall in Hts.
  unfold next, counts_faithful. fold B.
  destruct (Z.leb_spec (B + bin_width) t) as [Hsw | Hstay];
    cbn [Single.bin_start Single.bin_count Single.out].
  - (* the event opens a later bin *)
    pose proof (align_advance _ _ _ Hbw HB Hsw) as Hadv.
    pose proof (align_gt bin_width t Hbw) as Hgt.
    pose proof (align_floor bin_width t Hbw) as Hat.
    split; [|split].
    + rewrite events_within_snoc_in by lia.
      rewrite events_within_none; [done|].
      apply Forall_forall. intros x Hx. specialize (Hts x Hx). lia.
    + apply Forall_forall. intros b Hb.
      apply elem_of_app in Hb as [Hb | Hb].
      { rewrite events_within_snoc_out by (specialize (Hold b Hb); lia).
        by apply Hout. }
      apply elem_of_cons in Hb as [-> | Hb]; cbn [count start_t].
      { rewrite events_within_snoc_out by lia. by rewrite Hc, u16_s16. }
      destruct include_zeros; [|by apply elem_of_nil in Hb].
      apply list_elem_of_fmap in Hb as (j & -> & Hj).
      unfold zero_bin. cbn [count start_t].
      destruct (zeros_ordered bin_width Hbw B (align bin_width t) HB
                  (align_mod _ _ Hbw)) as [_ Hz].
      rewrite Forall_forall in Hz. specialize (Hz j Hj).
      rewrite events_within_snoc_out by lia.
      rewrite events_within_none; [done|].
      apply Forall_forall. intros x Hx. specialize (Hts x Hx). lia.
    + apply Forall_app. split; [|constructor; [lia|done]].
      apply Forall_forall. intros x Hx. specialize (Hts x Hx). lia.
  - (* the event falls into the bin in progress *)
    split; [|split].
    + rewrite events_within_snoc_in by lia. by rewrite Hc, s16_add_l.
    + apply Forall_forall. intros b Hb.
      rewrite events_within_snoc_out by (specialize (Hold b Hb); lia).
      by apply Hout.
    + apply Forall_app. split; [by apply Forall_forall|].
      constructor; [lia|done].
Qed.

End TrueCounts.

(** ** The events each bin counts, on sorted input *)

Section HeldCounts.

Variables (bin_width : Z) (include_zeros : bool) (t0 : Z).
Hypothesis Hbw : 0 < bin_width.

Lemma events_held_snoc a s ts t :
  events_held bin_width a s (ts ++ [t])
  = events_held bin_width a s ts
    + (if decide (held bin_width a s t) then 1 else 0).
Proof.
  unfold events_held. rewrite filter_app, length_app.
  destruct (decide (held bin_width a s t)).
  - rewrite filter_cons_True by done. cbn. lia.
  - rewrite filter_cons_False by done. cbn. lia.
Qed.

Lemma events_held_snoc_out a s ts t :
  ¬ held bin_width a s t →
  events_held bin_width a s (ts ++ [t]) = events_held bin_width a s ts.
Proof.
  intros. rewrite events_held_snoc.
  destruct (decide (held bin_width a s t)); [done|lia].
Qed.

Lemma events_held_snoc_in a s ts t :
  held bin_width a s t →
  events_held bin_width a s (ts ++ [t]) = events_held bin_width a s ts + 1.
Proof.
  intros. rewrite events_held_snoc.
  by destruct (decide (held bin_width a s t)).
Qed.

Lemma events_held_none a s ts :
  Forall (λ t, ¬ held bin_width a s t) ts → events_held bin_width a s ts = 0.
Proof.
  intros H. unfold events_held.
  induction H as [|t ts Ht _ IH]; [done|].
  by rewrite filter_cons_False.
Qed.

Lemma events_held_pos a s ts t :
  t ∈ ts → held bin_width a s t → 1 ≤ events_held bin_width a s ts.
Proof.
  intros Hin Hheld. unfold events_held.
  assert (Hf : t ∈ filter (held bin_width a s) ts)
    by (by apply list_elem_of_filter).
  destruct (filter (held bin_width a s) ts); [by apply elem_of_nil in Hf|].
  cbn [length]. lia.
Qed.

(** A bin that starts after the anchor counts the events inside it. *)
Lemma events_held_within a s ts :
  s ≠ a ∨ Forall (λ t, a ≤ t) ts →
  a ≤ s → events_held bin_width a s ts = events_within s (s + bin_width) ts.
Proof.
  intros Hs Ha. unfold events_held, events_within. do 2 f_equal.
  induction ts as [|t ts IH]; [done|].
  assert (Hs' : s ≠ a ∨ Forall (λ t, a ≤ t) ts).
  { destruct Hs as [? | [_ ?]%Forall_cons]; auto. }
  rewrite !filter_cons, (IH Hs'). unfold held.
  destruct (decide (t < s + bin_width ∧ (s ≤ t ∨ s = a))) as [H1 | H1];
    destruct (decide (s ≤ t < s + bin_width)) as [H2 | H2]; try done;
    exfalso.
  - apply H2. destruct Hs as [? | [? _]%Forall_cons]; lia.
  - apply H1. lia.
Qed.

Lemma align_of_member B t :
  B mod bin_width = 0 → B ≤ t < B + bin_width → align bin_width t = B.
Proof.
  intros HB Ht. apply Z.mod_divide in HB as [k ->]; [|lia].
  unfold align. f_equal. symmetry.
  apply Z.div_unique with (r := t - k * bin_width); lia.
Qed.

(** On sorted events the counter of the bin in progress and the counts
    emitted so far are the numbers of events the bins count, reduced to
    16 bits; the first bin counts the events before it as well. *)
Lemma pass_counts_held times :
  Sorted Z.le times →
  counts_held bin_width (align bin_width t0) times
              (pass bin_width include_zeros t0 times).
Proof.
  intros Hsorted%Sorted_StronglySorted; [|apply _].
  apply (pass_ind _ _ _ times (counts_held bin_width (align bin_width t0))).
  { repeat split; constructor. }
  intros ts t Hpre (Hc & Hout & Hts).
  set (a := align bin_width t0) in *.
  set (st := pass bin_width include_zeros t0 ts) in *.
  set (B := Single.bin_start st) in *.
  destruct (pass_is_ordered bin_width include_zeros t0 Hbw ts)
    as (HB & Ha & _ & Hl).
  fold st B a in HB, Ha, Hl.
  assert (Hsnoc : StronglySorted Z.le (ts ++ [t])).
  { destruct Hpre as [k ->]. by apply StronglySorted_app_1_l in Hsorted. }
  assert (Hmax : ∀ x, x ∈ ts → x ≤ t).
  { intros x Hx. eapply StronglySorted_app_1_elem_of; [done..|].
    by apply list_elem_of_singleton. }
  assert (HBt : B = a ∨ B ≤ t).
  { destruct (pass_start_origin bin_width include_zeros t0 ts)
      as [HB0 | (t' & Hin & HB0)]; fold st B a in HB0; [by left|].
    right. specialize (Hmax t' Hin).
    pose proof (align_floor bin_width t' Hbw). lia. }
  assert (Hold : ∀ b, b ∈ Single.out st →
                      a ≤ start_t b ∧ start_t b + bin_width ≤ B).
  { intros b Hb. rewrite Forall_forall in Hl.
    destruct (Hl (start_t b)) as (? & ? & _); [|done].
    apply list_elem_of_fmap. by exists b. }
  rewrite Forall_forall in Hout. rewrite Forall_forall in Hts.
  unfold next, counts_held. fold B.
  destruct (Z.leb_spec (B + bin_width) t) as [Hsw | Hstay];
    cbn [Single.bin_start Single.bin_count Single.out].
  - (* the event opens a later bin *)
    pose proof (align_advance _ _ _ Hbw HB Hsw) as Hadv.
    pose proof (align_gt bin_width t Hbw) as Hgt.
    pose proof (align_floor bin_width t Hbw) as Hat.
    split; [|split].
    + rewrite events_held_snoc_in by (unfold held; lia).
      rewrite events_held_none; [done|].
      apply Forall_forall. intros x Hx. specialize (Hts x Hx).
      unfold held. lia.
    + apply Forall_forall. intros b Hb.
      apply elem_of_app in Hb as [Hb | Hb].
      { rewrite events_held_snoc_out
          by (specialize (Hold b Hb); unfold held; lia).
        by apply Hout. }
      apply elem_of_cons in Hb as [-> | Hb]; cbn [count start_t].
      { rewrite events_held_snoc_out by (unfold held; lia).
        by rewrite Hc, u16_s16. }
      destruct include_zeros; [|by apply elem_of_nil in Hb].
      apply list_elem_of_fmap in Hb as (j & -> & Hj).
      unfold zero_bin. cbn [count start_t].
      destruct (zeros_ordered bin_width Hbw B (align bin_width t) HB
                  (align_mod _ _ Hbw)) as [_ Hz].
      rewrite Forall_forall in Hz. specialize (Hz j Hj).
      rewrite events_held_snoc_out by (unfold held; lia).
      rewrite events_held_none; [done|].
      apply Forall_forall. intros x Hx. specialize (Hts x Hx).
      unfold held. lia.
    + apply Forall_app. split; [|constructor; [lia|done]].
      apply Forall_forall. intros x Hx. specialize (Hts x Hx). lia.
  - (* the event is counted by the bin in progress *)
    split; [|split].
    + rewrite events_held_snoc_in by (unfold held; lia).
      by rewrite Hc, s16_add_l.
    + apply Forall_forall. intros b Hb.
      rewrite events_held_snoc_out
        by (specialize (Hold b Hb); unfold held; lia).
      by apply Hout.
    + apply Forall_app. split; [by apply Forall_forall|].
      constructor; [lia|done].
Qed.

(** Without zero-filling every emitted bin is the anchor bin or the bin
    of an event. *)
Lemma emitted_origin times :
  Forall (λ b, start_t b = align bin_width t0
               ∨ ∃ t, t ∈ times ∧ start_t b = align bin_width t)
         (Single.out (pass bin_width false t0 times)).
Proof.
  apply (pass_ind bin_width false t0 times (λ ts st,
    Forall (λ b, start_t b = align bin_width t0
                 ∨ ∃ t, t ∈ ts ∧ start_t b = align bin_width t)
           (Single.out st))).
  - constructor.
  - intros ts t _ IH.
    assert (IH' : Forall (λ b, start_t b = align bin_width t0
                   ∨ ∃ t', t' ∈ ts ++ [t] ∧ start_t b = align bin_width t')
                   (Single.out (pass bin_width false t0 ts))).
    { eapply Forall_impl; [exact IH|]. cbn.
      intros b [? | (t' & Hin & ?)]; [by left|].
      right. exists t'. split; [|done]. apply elem_of_app. by left. }
    unfold next. destruct (_ <=? _); cbn [Single.out]; [|done].
    apply Forall_app. split; [done|]. constructor; [|constructor].
    cbn [start_t].
    destruct (pass_start_origin bin_width false t0 ts)
      as [-> | (t' & Hin & ->)]; [by left|].
    right. exists t'. split; [|done]. apply elem_of_app. by left.
Qed.

(** On sorted events none of which precedes the anchor bin, every event
    lies in the bin in progress or in a bin that has been emitted. *)
Lemma pass_events_binned times :
  Sorted Z.le times →
  Forall (λ t, align bin_width t0 ≤ t) times →
  let st := pass bin_width include_zeros t0 times in
  Forall (λ t, align bin_width t = Single.bin_start st
               ∨ align bin_width t ∈ start_t <$> Single.out st) times.
Proof.
  intros Hsorted%Sorted_StronglySorted Hanchor; [|apply _].
  apply (pass_ind _ _ _ times (λ ts st,
    Forall (λ t, align bin_width t = Single.bin_start st
                 ∨ align bin_width t ∈ start_t <$> Single.out st) ts)).
  { constructor. }
  intros ts t Hpre IH.
  set (st := pass bin_width include_zeros t0 ts) in *.
  destruct (pass_is_ordered bin_width include_zeros t0 Hbw ts)
    as (HB & _ & _ & _). fold st in HB.
  assert (HBt : Single.bin_start st ≤ t).
  { assert (Hsnoc : StronglySorted Z.le (ts ++ [t])).
    { destruct Hpre as [k ->]. by apply StronglySorted_app_1_l in Hsorted. }
    destruct (pass_start_origin bin_width include_zeros t0 ts)
      as [HB0 | (t' & Hin & HB0)]; fold st in HB0; rewrite HB0.
    - rewrite Forall_forall in Hanchor. apply Hanchor.
      destruct Hpre as [k ->]. rewrite !elem_of_app, list_elem_of_singleton.
      auto.
    - pose proof (align_floor bin_width t' Hbw).
      assert (t' ≤ t); [|lia].
      eapply StronglySorted_app_1_elem_of; [done..|].
      by apply list_elem_of_singleton. }
  unfold next.
  destruct (Z.leb_spec (Single.bin_start st + bin_width) t) as [Hsw | Hstay];
    cbn [Single.bin_start Single.out].
  - apply Forall_app. split; [|constructor; [by left|constructor]].
    eapply Forall_impl; [exact IH|]. cbn. intros x Hx. right.
    rewrite fmap_app, fmap_cons, elem_of_app, elem_of_cons. cbn [start_t].
    destruct Hx as [-> | Hx]; auto.
  - apply Forall_app. split; [done|]. constructor; [|constructor].
    left. apply align_of_member; [done|lia].
Qed.




End HeldCounts.

(** ** Statements about [bin_photons] *)

Section Claims.

Variable uninit : Bin.
Variables (times : list Z) (bin_width t_start t_end : Z).
Variable include_zeros : bool.

Hypothesis Hwidth : safe_width bin_width.
Hypothesis Htimes : Forall safe_time times.
Hypothesis Hstart : safe_opt t_start.
Hypothesis Hend : safe_opt t_end.

Lemma StronglySorted_lt_NoDup (l : list Z) : StronglySorted Z.lt l → NoDup l.
Proof.
  induction 1 as [|x l _ IH Hx]; constructor; [|done].
  intros Hin. rewrite Forall_forall in Hx. specialize (Hx x Hin). lia.
Qed.

Lemma trailing_elem st b :
  b ∈ trailing bin_width include_zeros t_end st →
  count b = 0 ∧ Single.bin_start st + bin_width ≤ start_t b < t_end
  ∧ (start_t b - Single.bin_start st) mod bin_width = 0.
Proof.
  unfold trailing. destruct (_ && _); [|by intros ?%elem_of_nil].
  intros (j & -> & Hj)%list_elem_of_fmap.
  apply py_range_elem in Hj as [Hj Hmod]; [|apply Hwidth].
  cbn. split; [done|]. split; [done|].
  replace (j - Single.bin_start st)
    with (j - (Single.bin_start st + bin_width) + 1 * bin_width) by ring.
  by rewrite Z_mod_plus_full.
Qed.

(** C8. For a positive bin width and timestamps that keep the 64-bit
    arithmetic from overflowing, the call returns, the [start_t] values
    of the returned bins are strictly increasing, pairwise distinct and
    each an exact multiple of [bin_width]. Neither the order of the
    events nor the alignment of a provided [start_t] is needed: the
    anchor is floor-aligned by the function itself. *)
Theorem emitted_starts_ascending_aligned t0 :
  first_time times t_start = Some t0 →
  ∃ out,
    bin_photons uninit times bin_width t_start t_end include_zeros = Ok out
    ∧ StronglySorted Z.lt (start_t <$> out)
    ∧ NoDup (start_t <$> out)
    ∧ Forall (λ b, start_t b mod bin_width = 0) out.
Proof.
  intros Hfirst. eexists. split.
  { by apply bin_photons_safe. }
  set (st := pass bin_width include_zeros t0 times).
  destruct Hwidth as [Hw0 _].
  destruct (pass_is_ordered bin_width include_zeros t0 Hw0 times)
    as (HB & _ & Hs & Hl).
  fold st in HB, Hs, Hl. rewrite Forall_forall in Hl.
  assert (Hsorted : StronglySorted Z.lt
            (start_t <$> Single.out st
                         ++ trailing bin_width include_zeros t_end st)).
  { rewrite fmap_app. apply StronglySorted_app_2; [|done|].
    - intros x y Hx (b & -> & Hb)%list_elem_of_fmap.
      apply trailing_elem in Hb as (_ & ? & _). specialize (Hl x Hx). lia.
    - unfold trailing. destruct (_ && _); [|constructor].
      rewrite fmap_start_zero_bin. by apply py_range_sorted. }
  split; [done|]. split; [by apply StronglySorted_lt_NoDup|].
  apply Forall_forall. intros b [Hb | Hb]%elem_of_app.
  - apply Hl, list_elem_of_fmap. by exists b.
  - apply trailing_elem in Hb as (_ & _ & Hmod).
    apply Z.mod_divide in HB as [k Hk]; [|lia].
    apply Z.mod_divide in Hmod as [k' Hk']; [|lia].
    replace (start_t b) with ((k' + k) * bin_width) by lia.
    apply Z_mod_mult.
Qed.

Lemma in_pass_below_event t0 b :
  b ∈ Single.out (pass bin_width include_zeros t0 times) →
  ∃ t, t ∈ times ∧ start_t b < t.
Proof.
  intros Hb. destruct Hwidth as [Hw0 _].
  destruct (pass_is_ordered bin_width include_zeros t0 Hw0 times)
    as (_ & _ & _ & Hl).
  rewrite Forall_forall in Hl.
  destruct (Hl (start_t b)) as (Hlo & Hhi & _).
  { apply list_elem_of_fmap. by exists b. }
  destruct (pass_start_origin bin_width include_zeros t0 times)
    as [HB | (t & Hin & HB)]; [lia|].
  exists t. split; [done|]. rewrite Forall_forall in Htimes.
  destruct (Htimes t Hin) as [Ht0 _].
  pose proof (align_le bin_width t Hw0 Ht0). lia.
Qed.

(** C3, as the code has it. Only the zero-count bins appended after the
    pass are cut at [end_t]; a bin emitted during the pass starts below
    some event, whatever [end_t] is. Hence every returned bin starts
    below [end_t] when all events lie below [end_t], and events at or
    beyond [end_t] are binned like any other. *)
Theorem emitted_below_end_or_event t0 :
  first_time times t_start = Some t0 →
  ∃ out,
    bin_photons uninit times bin_width t_start t_end include_zeros = Ok out
    ∧ Forall (λ b, start_t b < t_end ∨ ∃ t, t ∈ times ∧ start_t b < t) out
    ∧ (Forall (λ t, t < t_end) times → Forall (λ b, start_t b < t_end) out).
Proof.
  intros Hfirst. eexists. split.
  { by apply bin_photons_safe. }
  set (st := pass bin_width include_zeros t0 times).
  assert (Hall : ∀ b, b ∈ Single.out st
                        ++ trailing bin_width include_zeros t_end st →
                 start_t b < t_end ∨ ∃ t, t ∈ times ∧ start_t b < t).
  { intros b [Hb | Hb]%elem_of_app.
    - right. by eapply in_pass_below_event.
    - left. apply trailing_elem in Hb. lia. }
  split; [by apply Forall_forall|].
  intros Hlt. rewrite Forall_forall in Hlt. apply Forall_forall.
  intros b Hb. destruct (Hall b Hb) as [? | (t & Hin & ?)]; [done|].
  specialize (Hlt t Hin). lia.
Qed.

(** C7, as the code has it. A provided [start_t] is floor-aligned to a
    multiple of [bin_width] before it is used (line 24): as soon as an
    event lies at or beyond the end of the first bin, the first returned
    entry starts at [(start_t / bin_width) * bin_width], which is the
    provided value exactly when that value is a multiple of
    [bin_width]. *)
Theorem first_bin_start_aligned :
  t_start ≠ UNSPECIFIED →
  Exists (λ t, align bin_width t_start + bin_width ≤ t) times →
  ∃ c rest,
    bin_photons uninit times bin_width t_start t_end include_zeros
    = Ok ({| start_t := align bin_width t_start; count := c |} :: rest)
    ∧ (align bin_width t_start = t_start ↔ t_start mod bin_width = 0).
Proof.
  intros Hgiven Hex.
  assert (Hfirst : first_time times t_start = Some t_start).
  { unfold first_time. by apply Z.eqb_neq in Hgiven as ->. }
  rewrite (bin_photons_safe _ _ Hwidth _ _ _ _ _ Htimes Hstart Hend Hfirst).
  destruct (pass_first_bin bin_width include_zeros t_start times)
    as [(_ & _ & Hall) | (c & rest & -> & _)].
  - exfalso. apply Exists_exists in Hex as (t & Hin & Ht).
    rewrite Forall_forall in Hall. specialize (Hall t Hin). lia.
  - eexists c, _. split; [reflexivity|].
    destruct Hwidth as [Hw0 _]. unfold align. split.
    + intros <-. apply Z_mod_mult.
    + intros Hmod. apply Z.mod_divide in Hmod as [k ->]; [|lia].
      rewrite Z.div_mul by lia. done.
Qed.



(** C5, as the code has it. Without zero-filling, on sorted events with
    [times] non-empty or [start_t] given, the call returns and no
    returned entry after the first whose bin holds fewer than [2 ^ 16]
    events (so that its count does not wrap to zero) has a zero count;
    the same holds of the first entry when the first event does not lie
    beyond the first bin, which is always so when [start_t] is
    omitted. *)
Theorem no_zero_count_without_zero_fill t0 :
  include_zeros = false →
  Sorted Z.le times →
  first_time times t_start = Some t0 →
  ∃ out,
    bin_photons uninit times bin_width t_start t_end include_zeros = Ok out
    ∧ Forall (λ b, events_held bin_width (align bin_width t0) (start_t b)
                     times < 2 ^ 16 → count b ≠ 0) (tail out)
    ∧ (t_start = UNSPECIFIED
       ∨ (∀ t, head times = Some t → t < align bin_width t_start + bin_width)
       → Forall (λ b, events_held bin_width (align bin_width t0) (start_t b)
                        times < 2 ^ 16 → count b ≠ 0) out).
Proof.
  intros Hiz Hsorted Hfirst. eexists. split.
  { by apply bin_photons_safe. }
  destruct Hwidth as [Hw0 _].
  set (a := align bin_width t0).
  set (st := pass bin_width include_zeros t0 times).
  assert (trailing bin_width include_zeros t_end st = []) as ->.
  { unfold trailing. by rewrite Hiz. }
  rewrite app_nil_r.
  destruct (pass_is_ordered bin_width include_zeros t0 Hw0 times)
    as (_ & _ & Hs & Hl).
  destruct (pass_counts_held bin_width include_zeros t0 Hw0 times Hsorted)
    as (_ & Hout & _).
  pose proof (emitted_origin bin_width t0 times) as Horig.
  rewrite <- Hiz in Horig.
  fold st a in Hs, Hl, Hout, Horig.
  assert (Hne : ∀ b, b ∈ Single.out st →
                ∃ t1, head times = Some t1 ∧ t1 ∈ times).
  { unfold st. destruct times as [|t1 ts].
    - by intros b ?%elem_of_nil.
    - intros _ _. exists t1. split; [done|]. apply elem_of_cons. by left. }
  assert (Hnz : ∀ b, b ∈ Single.out st →
            (start_t b = a → ∃ t, t ∈ times ∧ t < a + bin_width) →
            events_held bin_width a (start_t b) times < 2 ^ 16 →
            count b ≠ 0).
  { intros b Hb Hfirstbin Hlt.
    rewrite Forall_forall in Hout. rewrite Forall_forall in Horig.
    rewrite (Hout b Hb).
    assert (1 ≤ events_held bin_width a (start_t b) times);
      [|rewrite u16_small; lia].
    destruct (Horig b Hb) as [Heq | (t & Hin & Heq)].
    - destruct (Hfirstbin Heq) as (t & Hin & Ht).
      apply (events_held_pos bin_width a _ _ t Hin).
      unfold held. rewrite Heq. split; [lia|by right].
    - apply (events_held_pos bin_width a _ _ t Hin).
      unfold held. rewrite Heq.
      pose proof (align_floor bin_width t Hw0).
      pose proof (align_gt bin_width t Hw0). lia. }
  split.
  - destruct (Single.out st) as [|b0 l]; [constructor|]. cbn [tail].
    rewrite fmap_cons in Hs, Hl.
    apply StronglySorted_cons in Hs as [Hlt _].
    apply Forall_cons in Hl as [[Ha0 _] _].
    rewrite Forall_forall in Hlt.
    apply Forall_forall. intros b Hb.
    apply Hnz; [apply elem_of_cons; by right|].
    intros Heq. exfalso.
    assert (start_t b0 < start_t b); [|cbn in Ha0; lia].
    apply Hlt, list_elem_of_fmap. by exists b.
  - intros Hhead.
    assert (Hh : ∀ t, head times = Some t → t < a + bin_width).
    { intros t Ht. unfold first_time in Hfirst.
      destruct Hhead as [-> | Hhead].
      + change (UNSPECIFIED =? UNSPECIFIED) with true in Hfirst.
        rewrite <- head_lookup, Ht in Hfirst. injection Hfirst as ->.
        by apply align_gt.
      + destruct Hstart as [-> | Hst].
        * change (UNSPECIFIED =? UNSPECIFIED) with true in Hfirst.
          rewrite <- head_lookup, Ht in Hfirst. injection Hfirst as ->.
          by apply align_gt.
        * rewrite safe_time_specified in Hfirst by done.
          injection Hfirst as <-. by apply Hhead. }
    apply Forall_forall. intros b Hb. apply Hnz; [done|].
    intros _. destruct (Hne b Hb) as (t1 & Hhd & Hin).
    exists t1. split; [done|]. by apply Hh.
Qed.

(** C10. Whatever the number of events in a bin, the call returns
    without an exception and every stored count is the number of input
    events inside the bin [[start_t, start_t + bin_width)] reduced
    modulo [2 ^ 16]: beyond 65535 events the count wraps, it neither
    saturates nor widens. The bin of every event that is followed by an
    event at or beyond the end of that bin is returned, with this count:
    a bin of more than 65535 events that the pass leaves behind is
    stored with its count wrapped. (The events are sorted and, when
    [start_t] is given, none precedes its bin, so that each event lies
    in the bin that counts it.) *)
Theorem stored_count_wraps_mod_2_16 t0 :
  Sorted Z.le times →
  first_time times t_start = Some t0 →
  (t_start ≠ UNSPECIFIED →
   Forall (λ t, align bin_width t_start ≤ t) times) →
  ∃ out,
    bin_photons uninit times bin_width t_start t_end include_zeros = Ok out
    ∧ Forall (λ b, count b
                   = events_within (start_t b) (start_t b + bin_width) times
                     mod 2 ^ 16) out
    ∧ (∀ t, t ∈ times →
            Exists (λ t', align bin_width t + bin_width ≤ t') times →
            bin_of bin_width times (align bin_width t) ∈ out).
Proof.
  intros Hsorted Hfirst Hgiven. eexists. split.
  { by apply bin_photons_safe. }
  destruct Hwidth as [Hw0 _].
  assert (Hanchor : Forall (λ t, align bin_width t0 ≤ t) times).
  { destruct (decide (t_start = UNSPECIFIED)) as [-> | Hne].
    - unfold first_time in Hfirst.
      change (UNSPECIFIED =? UNSPECIFIED) with true in Hfirst.
      destruct times as [|t ts]; [done|]. injection Hfirst as ->.
      apply Sorted_StronglySorted in Hsorted; [|apply _].
      apply StronglySorted_cons in Hsorted as [Hle _].
      pose proof (align_floor bin_width t0 Hw0).
      constructor; [done|].
      eapply Forall_impl; [exact Hle|]. cbn. lia.
    - unfold first_time in Hfirst.
      apply Z.eqb_neq in Hne as Hneb. rewrite Hneb in Hfirst.
      injection Hfirst as <-. by apply Hgiven. }
  destruct (pass_counts_faithful bin_width include_zeros t0 Hw0 times
              Hsorted Hanchor) as (_ & Hout & Hts).
  split.
  - apply Forall_app. split; [done|].
    apply Forall_forall. intros b Hb.
    apply trailing_elem in Hb as (-> & Hlo & _).
    rewrite events_within_none; [done|].
    apply Forall_forall. intros t Ht.
    rewrite Forall_forall in Hts. specialize (Hts t Ht). lia.
  - intros t Ht (t' & Hin' & Hlater)%Exists_exists.
    apply elem_of_app. left.
    pose proof (pass_events_binned bin_width include_zeros t0 Hw0 times
                  Hsorted Hanchor) as Hbinned.
    cbn zeta in Hbinned.
    rewrite Forall_forall in Hbinned. rewrite Forall_forall in Hts.
    destruct (Hbinned t Ht) as [Heq | (b & Heq & Hb)%list_elem_of_fmap].
    { specialize (Hts t' Hin'). lia. }
    rewrite Forall_forall in Hout. specialize (Hout b Hb).
    unfold bin_of. rewrite Heq. fold (u16 (events_within (start_t b)
      (start_t b + bin_width) times)). rewrite <- Hout. by destruct b.
Qed.

End Claims.

(** C9. On every input the function, which collects its bins in chunks of
    10000 entries and concatenates them, returns what the variant that
    appends to a single growing buffer returns: the same bins in the same
    order, or the same exception. This covers the results of more than
    10000 entries: when the function returns, it has flushed one full
    chunk per 10000 returned bins and the remaining bins are the written
    part of the last chunk. *)
Theorem chunked_output_equals_single_buffer uninit times bin_width
    t_start t_end include_zeros :
  bin_photons uninit times bin_width t_start t_end include_zeros
  = Single.bin_photons times bin_width t_start t_end include_zeros
  ∧ match fill_buffer uninit times bin_width t_start t_end include_zeros with
    | Ok b => chunk_accounting b
    | Raise _ => True
    end.
Proof.
  split.
  - apply bin_photons_single.
  - apply fill_buffer_accounting.
Qed.

(** ** The function at concrete inputs *)

(** The side conditions on a concrete input. *)
Ltac safe_input :=
  lazymatch goal with
  | |- safe_width _ => unfold safe_width; lia
  | |- safe_opt UNSPECIFIED => by left
  | |- safe_opt _ => right; unfold safe_time; lia
  | |- safe_time _ => unfold safe_time; lia
  | |- Forall safe_time (_ ++ _) =>
      apply Forall_app; split; safe_input
  | |- Forall safe_time (replicate _ _) =>
      apply Forall_replicate; safe_input
  | |- Forall safe_time _ => repeat constructor; unfold safe_time; lia
  end.

Lemma Sorted_replicate_snoc n (a b : Z) :
  a ≤ b → Sorted Z.le (replicate n a ++ [b]).
Proof.
  intros Hab. induction n as [|n IH]; cbn; [by repeat constructor|].
  constructor; [done|]. destruct n; cbn; by constructor.
Qed.

Lemma Sorted_replicate_app n (a : Z) (l : list Z) :
  Sorted Z.le l → Forall (Z.le a) l → Sorted Z.le (replicate n a ++ l).
Proof.
  intros Hl Ha. induction n as [|n IH]; [done|]. cbn.
  constructor; [done|]. destruct n; cbn; [|by constructor].
  destruct Ha; by constructor.
Qed.

(** C2. On the scenario of the spec the bin in progress at the end of the
    pass, [(10, 1)], is missing from the result: nothing emits it after
    the loop, although inside the loop every bin is stored before the
    zero-count bins that follow it. *)
Theorem final_bin_not_emitted uninit :
  bin_photons uninit [0; 0; 5; 5; 5; 12] 5 UNSPECIFIED UNSPECIFIED true
  = Ok [ {| start_t := 0; count := 2 |}; {| start_t := 5; count := 3 |} ].
Proof. rewrite bin_photons_single. reflexivity. Qed.

(** C4. With an explicit [end_t] the trailing zero-count bins start one
    bin after the bin in progress, which itself was never stored: the
    returned starts [0, 10, 15] skip the bin at 5 that holds the event 7. *)
Theorem gap_before_trailing_zero_bins uninit :
  bin_photons uninit [0; 7] 5 UNSPECIFIED 20 true
  = Ok [ {| start_t := 0; count := 1 |}; {| start_t := 10; count := 0 |};
         {| start_t := 15; count := 0 |} ].
Proof. rewrite bin_photons_single. reflexivity. Qed.

(** C6. With an empty [times] and no [start_t] the function evaluates
    [times[0]] and fails with [IndexError], whatever the other
    arguments. *)
Theorem empty_times_raises_IndexError uninit bin_width t_end include_zeros :
  bin_photons uninit [] bin_width UNSPECIFIED t_end include_zeros
  = Raise IndexError.
Proof. reflexivity. Qed.


(** C3 fails as stated: with [end_t = 10] the bin at 10 is returned. *)
Lemma end_t_does_not_truncate :
  bin_photons junk [0; 7; 12; 17] 5 UNSPECIFIED 10 true
  = Ok [ {| start_t := 0; count := 1 |}; {| start_t := 5; count := 1 |};
         {| start_t := 10; count := 1 |} ]
  ∧ ¬ Forall (λ b, start_t b < 10)
        [ {| start_t := 0; count := 1 |}; {| start_t := 5; count := 1 |};
          {| start_t := 10; count := 1 |} ].
Proof.
  split; [by vm_compute|]. intros H.
  do 2 apply Forall_cons in H as [_ H]. apply Forall_cons in H as [H _].
  cbn in H. lia.
Qed.

(** C5 fails as stated: 65536 events in one bin wrap its count to zero,
    and the bin is returned although zero-filling is off. *)
Lemma zero_count_without_zero_fill :
  bin_photons junk (replicate (Z.to_nat 65536) 0 ++ [5]) 5
              UNSPECIFIED UNSPECIFIED false
  = Ok [ {| start_t := 0; count := 0 |} ]
  ∧ ¬ Forall (λ b, count b ≠ 0) [ {| start_t := 0; count := 0 |} ].
Proof.
  split; [by vm_compute|]. intros [H _]%Forall_cons. by apply H.
Qed.

(** The bin of an explicit [start_t] is stored when the first event lies
    beyond it, although it holds no event and zero-filling is off: the
    docstring promises only bins which contain at least one photon. *)
Example empty_first_bin_returned uninit :
  bin_photons uninit [7] 5 0 UNSPECIFIED false
  = Ok [ {| start_t := 0; count := 0 |} ].
Proof. rewrite bin_photons_single. reflexivity. Qed.

(** C7 fails as stated: [start_t = 3] is aligned down to 0. *)
Lemma start_anchor_realigned :
  bin_photons junk [3; 12] 5 3 UNSPECIFIED true
  = Ok [ {| start_t := 0; count := 1 |}; {| start_t := 5; count := 0 |} ]
  ∧ start_t <$> head [ {| start_t := 0; count := 1 |};
                       {| start_t := 5; count := 0 |} ] ≠ Some 3.
Proof. split; [by vm_compute|]. by intros [=]. Qed.

(** C8 at [times = [0, 20]], [bin_width = 5], [end_t = 30]. *)
Lemma emitted_starts_ascending_aligned_witness :
  ∃ out,
    bin_photons junk [0; 20] 5 UNSPECIFIED 30 true = Ok out
    ∧ StronglySorted Z.lt (start_t <$> out)
    ∧ NoDup (start_t <$> out)
    ∧ Forall (λ b, start_t b mod 5 = 0) out.
Proof.
  apply (emitted_starts_ascending_aligned junk [0; 20] 5 UNSPECIFIED 30 true)
    with (t0 := 0); [safe_input..|reflexivity].
Defined.


(** C3 at [times = [0, 7]], [bin_width = 5], [end_t = 20]: both events
    lie below [end_t], and so does every returned bin. *)
Lemma emitted_below_end_or_event_witness :
  ∃ out,
    bin_photons junk [0; 7] 5 UNSPECIFIED 20 true = Ok out
    ∧ Forall (λ b, start_t b < 20) out.
Proof.
  destruct (emitted_below_end_or_event junk [0; 7] 5 UNSPECIFIED 20 true)
    with (t0 := 0) as (out & Hout & _ & Hbelow);
    [safe_input..|reflexivity|].
  exists out. split; [exact Hout|]. apply Hbelow. repeat constructor; lia.
Defined.

(** C5 at 80001 events, 40000 in each of the bins at 0 and at 5 and one
    at 12, with [bin_width = 5]: more than [2 ^ 16] events in all, fewer
    in every bin. *)
Lemma no_zero_count_without_zero_fill_witness :
  ∃ out,
    bin_photons junk
      (replicate (Z.to_nat 40000) 2 ++ replicate (Z.to_nat 40000) 7 ++ [12])
      5 UNSPECIFIED UNSPECIFIED false = Ok out
    ∧ Forall (λ b, count b ≠ 0) out.
Proof.
  destruct (no_zero_count_without_zero_fill junk
              (replicate (Z.to_nat 40000) 2
                 ++ replicate (Z.to_nat 40000) 7 ++ [12])
              5 UNSPECIFIED UNSPECIFIED false) with (t0 := 2)
    as (out & Hout & _ & Hall); [safe_input..|reflexivity| |reflexivity|].
  { apply Sorted_replicate_app; [apply Sorted_replicate_snoc; lia|].
    apply Forall_app.
    split; [apply Forall_replicate; lia|repeat constructor; lia]. }
  exists out. split; [exact Hout|].
  assert (Hval : bin_photons junk
                   (replicate (Z.to_nat 40000) 2
                      ++ replicate (Z.to_nat 40000) 7 ++ [12])
                   5 UNSPECIFIED UNSPECIFIED false
                 = Ok [ {| start_t := 0; count := 40000 |};
                        {| start_t := 5; count := 40000 |} ])
    by (by vm_compute).
  rewrite Hval in Hout. injection Hout as <-.
  specialize (Hall (or_introl eq_refl)).
  apply Forall_cons in Hall as [H0 Hall].
  apply Forall_cons in Hall as [H5 _].
  constructor; [apply H0; by vm_compute|].
  constructor; [apply H5; by vm_compute|]. constructor.
Defined.

(** C7 at [times = [3, 12]], [bin_width = 5], [start_t = 3]. *)
Lemma first_bin_start_aligned_witness :
  ∃ c rest,
    bin_photons junk [3; 12] 5 3 UNSPECIFIED true
    = Ok ({| start_t := align 5 3; count := c |} :: rest)
    ∧ (align 5 3 = 3 ↔ 3 mod 5 = 0).
Proof.
  apply (first_bin_start_aligned junk [3; 12] 5 3 UNSPECIFIED true);
    [safe_input..| |].
  - unfold UNSPECIFIED. lia.
  - apply Exists_cons_tl, Exists_cons_hd. vm_compute. by intros [=].
Defined.

(** C10 at 65537 events in the bin at 5, followed by one event at 12,
    with [start_t = 5]: the bin at 5 is returned with the count 1. *)
Lemma stored_count_wraps_mod_2_16_witness :
  ∃ out,
    bin_photons junk (replicate (Z.to_nat 65537) 7 ++ [12]) 5
                5 UNSPECIFIED true = Ok out
    ∧ Forall (λ b, count b
                   = events_within (start_t b) (start_t b + 5)
                       (replicate (Z.to_nat 65537) 7 ++ [12])
                     mod 2 ^ 16) out
    ∧ {| start_t := 5; count := 1 |} ∈ out.
Proof.
  destruct (stored_count_wraps_mod_2_16 junk
              (replicate (Z.to_nat 65537) 7 ++ [12]) 5 5 UNSPECIFIED
              true) with (t0 := 5) as (out & Hout & Hall & Hret);
    [safe_input..| | | |].
  - apply Sorted_replicate_snoc. lia.
  - reflexivity.
  - intros _. apply Forall_app.
    split; [apply Forall_replicate|repeat constructor]; by vm_compute.
  - exists out. split; [exact Hout|]. split; [exact Hall|].
    assert (Hbin : bin_of 5 (replicate (Z.to_nat 65537) 7 ++ [12])
                     (align 5 7)
                   = {| start_t := 5; count := 1 |}) by (by vm_compute).
    rewrite <- Hbin. apply (Hret 7).
    + apply elem_of_app. left. apply elem_of_replicate. split; [done|lia].
    + apply Exists_app. right. apply Exists_cons_hd.
      vm_compute. by intros [=].
Defined.

(** The wrapped count itself: 65537 events are stored as 1. *)
Example count_65537_stored_as_1 :
  bin_photons junk (replicate (Z.to_nat 65537) 7 ++ [12]) 5
              UNSPECIFIED UNSPECIFIED true
  = Ok [ {| start_t := 5; count := 1 |} ].
Proof. by vm_compute. Qed.

(** ** Ranges on the grid of bin starts *)

Section Grid.

Variable bin_width : Z.
Hypothesis Hbw : 0 < bin_width.

Lemma sorted_lt_ext (l1 l2 : list Z) :
  StronglySorted Z.lt l1 → StronglySorted Z.lt l2 →
  (∀ x, x ∈ l1 ↔ x ∈ l2) → l1 = l2.
Proof.
  intros H1 H2 Hext.
  apply (StronglySorted_unique_strong Z.lt); [|done..|].
  - intros x y _ _ ? ?. lia.
  - apply NoDup_Permutation; [by apply StronglySorted_lt_NoDup..|done].
Qed.

Lemma py_range_elem_iff lo hi j :
  j ∈ py_range lo hi bin_width ↔ lo ≤ j < hi ∧ (j - lo) mod bin_width = 0.
Proof.
  split; [by apply py_range_elem|].
  intros [[Hlo Hhi] Hmod]. apply Z.mod_divide in Hmod as [k Hk]; [|lia].
  unfold py_range. apply list_elem_of_fmap. exists k. split; [lia|].
  apply elem_of_seqZ. unfold range_len.
  destruct (Z.ltb_spec 0 bin_width); [|lia].
  destruct (Z.ltb_spec lo hi); [|lia].
  assert (0 ≤ k) by nia.
  assert (k ≤ (hi - 1 - lo) / bin_width); [|lia].
  apply Z.div_le_lower_bound; lia.
Qed.

(** Congruence modulo the bin width moves along the grid. *)
Lemma grid_shift a b x :
  (b - a) mod bin_width = 0 →
  (x - a) mod bin_width = 0 ↔ (x - b) mod bin_width = 0.
Proof.
  intros Hab. apply Z.mod_divide in Hab as [k Hk]; [|lia].
  split; intros Hx; apply Z.mod_divide in Hx as [m Hm]; try lia;
    apply Z.mod_divide; try lia.
  - exists (m - k). lia.
  - exists (m + k). lia.
Qed.

Lemma py_range_app a b c :
  a ≤ b ≤ c → (b - a) mod bin_width = 0 →
  py_range a c bin_width = py_range a b bin_width ++ py_range b c bin_width.
Proof.
  intros Habc Hab. apply sorted_lt_ext.
  - by apply py_range_sorted.
  - apply StronglySorted_app_2; [|by apply py_range_sorted..].
    intros x y [? _]%py_range_elem_iff [? _]%py_range_elem_iff. lia.
  - intros x. rewrite elem_of_app, !py_range_elem_iff.
    pose proof (grid_shift a b x Hab). intuition lia.
Qed.

Lemma py_range_cons a c :
  a < c →
  py_range a c bin_width = a :: py_range (a + bin_width) c bin_width.
Proof.
  intros Hac. apply sorted_lt_ext.
  - by apply py_range_sorted.
  - constructor; [by apply py_range_sorted|].
    apply Forall_forall. intros x [? _]%py_range_elem_iff. lia.
  - intros x. rewrite elem_of_cons, !py_range_elem_iff.
    assert (Hs : (a + bin_width - a) mod bin_width = 0).
    { replace (a + bin_width - a) with (1 * bin_width) by ring.
      apply Z_mod_mult. }
    pose proof (grid_shift a (a + bin_width) x Hs) as Hg.
    split.
    + intros [[? ?] Hm]. destruct (decide (x = a)) as [|Hne]; [by left|].
      right. split; [|by apply Hg].
      apply Z.mod_divide in Hm as [k Hk]; [|lia].
      assert (1 ≤ k) by nia. nia.
    + intros [-> | [[? ?] Hm]].
      * split; [lia|]. by rewrite Z.sub_diag.
      * split; [lia|]. by apply Hg.
Qed.

Lemma py_range_empty a c : c ≤ a → py_range a c bin_width = [].
Proof.
  intros Hca. unfold py_range, range_len.
  destruct (Z.ltb_spec 0 bin_width); [|lia].
  by destruct (Z.ltb_spec a c); [lia|].
Qed.

Lemma sorted_lt_filter (P : Z → Prop) `{!∀ x, Decision (P x)} (l : list Z) :
  StronglySorted Z.lt l → StronglySorted Z.lt (filter P l).
Proof.
  induction 1 as [|x l Hl IH Hx]; [constructor|].
  rewrite filter_cons. destruct (decide (P x)); [|done].
  constructor; [done|]. apply Forall_forall.
  intros y [_ Hy]%list_elem_of_filter.
  rewrite Forall_forall in Hx. by apply Hx.
Qed.

(** A window cut out of a range of the same grid is a range. *)
Lemma filter_py_range a c lo hi :
  (lo - a) mod bin_width = 0 → a ≤ lo → hi ≤ c →
  filter (λ x, lo ≤ x ∧ x < hi) (py_range a c bin_width)
  = py_range lo hi bin_width.
Proof.
  intros Hlo Ha Hc. apply sorted_lt_ext.
  - apply sorted_lt_filter. by apply py_range_sorted.
  - by apply py_range_sorted.
  - intros x. rewrite list_elem_of_filter, !py_range_elem_iff.
    pose proof (grid_shift a lo x Hlo). intuition lia.
Qed.

Lemma py_range_length a m :
  0 ≤ m →
  Z.of_nat (length (py_range a (a + m * bin_width) bin_width)) = m.
Proof.
  intros Hm. unfold py_range. rewrite length_fmap, length_seqZ.
  unfold range_len. destruct (Z.ltb_spec 0 bin_width); [|lia].
  destruct (Z.ltb_spec a (a + m * bin_width)) as [Hlt | Hge].
  - replace (a + m * bin_width - 1 - a) with ((m - 1) * bin_width
                                               + (bin_width - 1)) by ring.
    rewrite Z.div_add_l, Z.div_small by lia. lia.
  - assert (m = 0) by nia. lia.
Qed.

End Grid.

(** ** The bins of a sorted trace in closed form *)

Section ClosedForm.

Variables (bin_width t0 : Z).
Hypothesis Hbw : 0 < bin_width.

Lemma align_unique B t :
  B mod bin_width = 0 → B ≤ t < B + bin_width → align bin_width t = B.
Proof.
  intros HB Ht. apply Z.mod_divide in HB as [k ->]; [|lia].
  unfold align. f_equal. symmetry.
  apply Z.div_unique with (r := t - k * bin_width); lia.
Qed.

Lemma grid_diff x y :
  x mod bin_width = 0 → y mod bin_width = 0 → (x - y) mod bin_width = 0.
Proof.
  intros [k ->]%Z.mod_divide [m ->]%Z.mod_divide; [|lia..].
  replace (k * bin_width - m * bin_width) with ((k - m) * bin_width) by ring.
  apply Z_mod_mult.
Qed.

(** With zero-filling the pass emits every bin from the anchor bin up to
    the bin in progress, that one excluded. *)
Lemma pass_contiguous times :
  let st := pass bin_width true t0 times in
  start_t <$> Single.out st
  = py_range (align bin_width t0) (Single.bin_start st) bin_width.
Proof.
  apply (pass_ind _ _ _ times (λ _ st,
    start_t <$> Single.out st
    = py_range (align bin_width t0) (Single.bin_start st) bin_width)).
  - cbn. by rewrite py_range_empty.
  - intros ts t _ IH.
    destruct (pass_is_ordered bin_width true t0 Hbw ts) as (HB & Ha & _ & _).
    unfold next.
    destruct (Z.leb_spec (Single.bin_start (pass bin_width true t0 ts)
                          + bin_width) t) as [Hsw | Hstay];
      cbn [Single.bin_start Single.out]; [|done].
    pose proof (align_advance _ _ _ Hbw HB Hsw) as Hadv.
    rewrite fmap_app, fmap_cons, fmap_start_zero_bin, IH. cbn [start_t].
    rewrite (py_range_app bin_width Hbw (align bin_width t0)
               (Single.bin_start (pass bin_width true t0 ts))
               (align bin_width t)); [|lia|].
    + f_equal. apply eq_sym, py_range_cons; lia.
    + apply grid_diff; [done|by apply align_mod].
Qed.

Lemma sorted_last_max (l : list Z) m :
  StronglySorted Z.le l → last l = Some m → ∀ x, x ∈ l → x ≤ m.
Proof.
  intros Hs [l' ->]%last_Some x [Hx | Hx]%elem_of_app.
  - eapply StronglySorted_app_1_elem_of; [done..|].
    by apply list_elem_of_singleton.
  - apply list_elem_of_singleton in Hx as ->. lia.
Qed.

(** On sorted events none of which precedes the anchor bin, the pass ends
    in the bin of the last event. *)
Lemma pass_final_start include_zeros times :
  Sorted Z.le times →
  Forall (λ t, align bin_width t0 ≤ t) times →
  Single.bin_start (pass bin_width include_zeros t0 times)
  = last_start bin_width t0 times.
Proof.
  intros Hsorted Hanchor. unfold last_start.
  destruct (last times) as [m|] eqn:Hlast; unfold default, id; cbn [from_option].
  2:{ apply last_None in Hlast as ->. done. }
  destruct (pass_counts_faithful bin_width include_zeros t0 Hbw times
              Hsorted Hanchor) as (_ & _ & Hts).
  destruct (pass_is_ordered bin_width include_zeros t0 Hbw times)
    as (HB & _ & _ & _).
  apply Sorted_StronglySorted in Hsorted; [|apply _].
  pose proof (sorted_last_max _ _ Hsorted Hlast) as Hmax.
  assert (Hm : m ∈ times) by (by apply last_Some_elem_of).
  rewrite Forall_forall in Hts. rewrite Forall_forall in Hanchor.
  symmetry. apply align_unique; [done|]. split; [|by apply Hts].
  destruct (pass_start_origin bin_width include_zeros t0 times)
    as [-> | (t & Hin & ->)]; [by apply Hanchor|].
  pose proof (align_floor bin_width t Hbw). specialize (Hmax t Hin). lia.
Qed.

Lemma bins_from_fields (f : Z → Z) (l : list Bin) :
  Forall (λ b, count b = f (start_t b)) l →
  l = (λ s, {| start_t := s; count := f s |}) <$> (start_t <$> l).
Proof.
  induction 1 as [|[s c] l Hb _ IH]; [done|].
  cbn in *. by rewrite <- IH, Hb.
Qed.

(** The bins the pass emits with zero-filling, in closed form. *)
Lemma pass_closed_form times :
  Sorted Z.le times →
  Forall (λ t, align bin_width t0 ≤ t) times →
  Single.out (pass bin_width true t0 times)
  = bin_of bin_width times
      <$> py_range (align bin_width t0) (last_start bin_width t0 times)
                   bin_width.
Proof.
  intros Hsorted Hanchor.
  destruct (pass_counts_faithful bin_width true t0 Hbw times
              Hsorted Hanchor) as (_ & Hout & _).
  rewrite (bins_from_fields
             (λ s, u16 (events_within s (s + bin_width) times)) _ Hout).
  by rewrite pass_contiguous, pass_final_start.
Qed.

End ClosedForm.

(** ** How the two modes and growing inputs relate *)

Section PassRelations.

Variables (bin_width t0 : Z).

Lemma filter_zero_bins (js : list Z) :
  filter (λ b, count b ≠ 0) (zero_bin <$> js) = [].
Proof.
  induction js as [|j js IH]; [done|].
  rewrite fmap_cons, filter_cons_False; [done|]. cbn. lia.
Qed.

Lemma prefix_head (ts times : list Z) t :
  ts ++ [t] `prefix_of` times → head times = head (ts ++ [t]).
Proof. intros [k ->]. by destruct ts. Qed.

(** Under the conditions that keep every data bin from a zero count, the
    pass without zero-filling is in the same bin with the same counter as
    the pass with zero-filling, and has emitted its non-zero bins. *)
Lemma pass_filter_nonzero times :
  Z.of_nat (length times) < 2 ^ 16 →
  (∀ t, head times = Some t → t < align bin_width t0 + bin_width) →
  let full := pass bin_width true t0 times in
  let plain := pass bin_width false t0 times in
  Single.bin_start full = Single.bin_start plain
  ∧ Single.bin_count full = Single.bin_count plain
  ∧ filter (λ b, count b ≠ 0) (Single.out full) = Single.out plain.
Proof.
  intros Hlen Hhead.
  apply (pass_ind bin_width false t0 times (λ ts plain,
    Single.bin_start (pass bin_width true t0 ts) = Single.bin_start plain
    ∧ Single.bin_count (pass bin_width true t0 ts) = Single.bin_count plain
    ∧ filter (λ b, count b ≠ 0) (Single.out (pass bin_width true t0 ts))
      = Single.out plain)).
  - done.
  - intros ts t Hpre (HB & Hc & Hout).
    assert (Hnz : Forall (λ b, count b ≠ 0)
              (Single.out (pass bin_width false t0 (ts ++ [t])))).
    { apply pass_counts_nonzero; [done| |].
      - apply prefix_length_le in Hpre. lia.
      - intros t'. rewrite <- (prefix_head _ _ _ Hpre). apply Hhead. }
    rewrite !pass_snoc in *. revert Hnz. unfold next.
    rewrite HB, Hc.
    destruct (_ <=? _); cbn [Single.bin_start Single.bin_count Single.out];
      [|done].
    intros [_ Hlast]%Forall_app. apply Forall_cons in Hlast as [Hlast _].
    split; [done|]. split; [done|].
    rewrite filter_app, filter_cons_True by done.
    by rewrite filter_zero_bins, Hout.
Qed.

Lemma next_out_prefix include_zeros st t :
  Single.out st `prefix_of` Single.out (next bin_width include_zeros st t).
Proof.
  unfold next. destruct (_ <=? _); cbn [Single.out]; [|done].
  by apply prefix_app_r.
Qed.

(** More events only append bins. *)
Lemma pass_app_prefix include_zeros times more :
  Single.out (pass bin_width include_zeros t0 times)
  `prefix_of` Single.out (pass bin_width include_zeros t0 (times ++ more)).
Proof.
  induction more as [|t more IH] using rev_ind.
  - by rewrite app_nil_r.
  - rewrite app_assoc, pass_snoc. etrans; [exact IH|].
    apply next_out_prefix.
Qed.

End PassRelations.

(** ** Further statements about [bin_photons] *)

Section Further.

Variable uninit : Bin.
Variables (times : list Z) (bin_width t_start t_end : Z).

Hypothesis Hwidth : safe_width bin_width.
Hypothesis Htimes : Forall safe_time times.
Hypothesis Hstart : safe_opt t_start.
Hypothesis Hend : safe_opt t_end.

(** On sorted events the anchor bin starts at or before every event when
    no event precedes the bin of a given [start_t]. *)
Lemma anchor_below_events t0 :
  Sorted Z.le times →
  first_time times t_start = Some t0 →
  (t_start ≠ UNSPECIFIED →
   Forall (λ t, align bin_width t_start ≤ t) times) →
  Forall (λ t, align bin_width t0 ≤ t) times.
Proof.
  intros Hsorted Hfirst Hgiven. unfold first_time in Hfirst.
  destruct (Z.eqb_spec t_start UNSPECIFIED) as [_ | Hne].
  - destruct times as [|t ts]; [done|]. injection Hfirst as ->.
    apply Sorted_StronglySorted in Hsorted; [|apply _].
    apply StronglySorted_cons in Hsorted as [Hle _].
    pose proof (align_floor bin_width t0 (proj1 Hwidth)).
    constructor; [done|]. eapply Forall_impl; [exact Hle|]. cbn. lia.
  - injection Hfirst as <-. by apply Hgiven.
Qed.

(** X1. On sorted events (none before the bin of a given [start_t]) the
    zero-filled result is, in closed form: one entry for every bin from
    the anchor bin up to the bin of the last event, that bin excluded,
    each with the number of events inside it modulo [2 ^ 16]; then, when
    [end_t] is given, a zero-count entry for every bin that starts after
    the bin of the last event and below [end_t]. The bin of the last
    event itself is in neither part. *)
Theorem sorted_trace_closed_form t0 :
  Sorted Z.le times →
  first_time times t_start = Some t0 →
  (t_start ≠ UNSPECIFIED →
   Forall (λ t, align bin_width t_start ≤ t) times) →
  bin_photons uninit times bin_width t_start t_end true
  = Ok ((bin_of bin_width times
           <$> py_range (align bin_width t0)
                        (last_start bin_width t0 times) bin_width)
        ++ (if t_end =? UNSPECIFIED then []
            else zero_bin
                   <$> py_range (last_start bin_width t0 times + bin_width)
                                t_end bin_width)).
Proof.
  intros Hsorted Hfirst Hgiven.
  pose proof (anchor_below_events t0 Hsorted Hfirst Hgiven) as Hanchor.
  rewrite (bin_photons_safe _ _ Hwidth _ _ _ _ _ Htimes Hstart Hend Hfirst).
  rewrite (pass_closed_form _ _ (proj1 Hwidth) _ Hsorted Hanchor).
  unfold trailing.
  rewrite (pass_final_start _ _ (proj1 Hwidth) _ _ Hsorted Hanchor).
  by destruct (t_end =? UNSPECIFIED).
Qed.

(** X2. Removing the zero-count entries from the zero-filled result
    gives the result without zero-filling, when fewer than [2 ^ 16]
    events are given and the first event does not lie beyond the first
    bin (always so when [start_t] is omitted). *)
Theorem zero_filled_filters_to_plain t0 :
  first_time times t_start = Some t0 →
  Z.of_nat (length times) < 2 ^ 16 →
  (t_start = UNSPECIFIED
   ∨ ∀ t, head times = Some t → t < align bin_width t_start + bin_width) →
  ∃ full plain,
    bin_photons uninit times bin_width t_start t_end true = Ok full
    ∧ bin_photons uninit times bin_width t_start t_end false = Ok plain
    ∧ filter (λ b, count b ≠ 0) full = plain.
Proof.
  intros Hfirst Hlen Hhead. eexists _, _.
  split; [by apply bin_photons_safe|]. split; [by apply bin_photons_safe|].
  assert (Hfirst_bin : ∀ t, head times = Some t →
                            t < align bin_width t0 + bin_width).
  { intros t Ht. unfold first_time in Hfirst.
    destruct (Z.eqb_spec t_start UNSPECIFIED) as [_ | Hne].
    - rewrite <- head_lookup, Ht in Hfirst. injection Hfirst as ->.
      apply align_gt, Hwidth.
    - injection Hfirst as <-. destruct Hhead as [? | Hhead]; [done|].
      by apply Hhead. }
  destruct (pass_filter_nonzero bin_width t0 times Hlen Hfirst_bin)
    as (_ & _ & Hout).
  rewrite filter_app, Hout. unfold trailing. cbn [andb].
  destruct (negb _); [|done]. by rewrite filter_zero_bins.
Qed.

(** X4. Without [end_t] the result is empty exactly when every event
    lies below the end of the first bin: such a trace, however many
    events it has, yields no bin at all. *)
Theorem empty_result_iff_single_bin include_zeros t0 :
  first_time times t_start = Some t0 →
  ∃ out,
    bin_photons uninit times bin_width t_start UNSPECIFIED include_zeros
    = Ok out
    ∧ (out = [] ↔ Forall (λ t, t < align bin_width t0 + bin_width) times).
Proof.
  intros Hfirst. eexists. split.
  { apply bin_photons_safe; [done..|by left|done]. }
  unfold trailing. rewrite andb_false_r, app_nil_r.
  destruct (pass_first_bin bin_width include_zeros t0 times)
    as [(-> & _ & Hall) | (c & rest & -> & Hex)]; [done|].
  split; [done|]. intros Hall. exfalso.
  apply Exists_exists in Hex as (t & Hin & Ht).
  rewrite Forall_forall in Hall. specialize (Hall t Hin). lia.
Qed.

End Further.

Section Growing.

Variable uninit : Bin.
Variables (times more : list Z) (bin_width t_start : Z).
Variable include_zeros : bool.

Hypothesis Hwidth : safe_width bin_width.
Hypothesis Htimes : Forall safe_time (times ++ more).
Hypothesis Hstart : safe_opt t_start.

(** X3. Without [end_t], events appended to a trace leave the bins
    already returned as they are: the result for the longer trace starts
    with the result for the shorter one. *)
Theorem appended_events_extend_result t0 :
  first_time times t_start = Some t0 →
  ∃ out out',
    bin_photons uninit times bin_width t_start UNSPECIFIED include_zeros
    = Ok out
    ∧ bin_photons uninit (times ++ more) bin_width t_start UNSPECIFIED
                  include_zeros = Ok out'
    ∧ out `prefix_of` out'.
Proof.
  intros Hfirst.
  assert (Hfirst' : first_time (times ++ more) t_start = Some t0).
  { unfold first_time in *. destruct (t_start =? UNSPECIFIED); [|done].
    by apply lookup_app_l_Some. }
  apply Forall_app in Htimes as Hsplit. destruct Hsplit as [Hts _].
  eexists _, _.
  split; [apply bin_photons_safe; [done..|by left|done]|].
  split; [apply bin_photons_safe; [done..|by left|done]|].
  unfold trailing. rewrite andb_false_r, !app_nil_r.
  apply pass_app_prefix.
Qed.

End Growing.

(** X5. A zero [bin_width] never returns: the call raises
    [ZeroDivisionError] at the alignment of the anchor, unless [times] is
    empty and [start_t] omitted, where [times[0]] has raised [IndexError]
    before. *)
Theorem zero_width_raises uninit times t_start t_end include_zeros :
  bin_photons uninit times 0 t_start t_end include_zeros
  = match first_time times t_start with
    | Some _ => Raise ZeroDivisionError
    | None => Raise IndexError
    end.
Proof.
  unfold bin_photons, fill_buffer, run_pass, init_state, first_time.
  destruct (t_start =? UNSPECIFIED); [|done].
  by destruct (times !! 0%nat).
Qed.

(** X6. The result does not depend on what [np.empty] left in the
    chunks: no uninitialised entry is ever returned. *)
Theorem uninitialised_memory_never_returned u u' times bin_width
    t_start t_end include_zeros :
  bin_photons u times bin_width t_start t_end include_zeros
  = bin_photons u' times bin_width t_start t_end include_zeros.
Proof. by rewrite !bin_photons_single. Qed.

(** ** The traces of the FRET script *)

Section FretTraces.

Variable bin_width : Z.
Hypothesis Hbw : 0 < bin_width.

Lemma foldl_min_spec (l : list Z) : ∀ x,
  foldl Z.min x l ∈ x :: l ∧ ∀ y, y ∈ x :: l → foldl Z.min x l ≤ y.
Proof.
  induction l as [|z l IH]; intros x; cbn [foldl].
  - split; [by left|]. intros y ->%list_elem_of_singleton. lia.
  - destruct (IH (Z.min x z)) as [Hin Hle]. split.
    + apply elem_of_cons in Hin as [-> | Hin].
      * destruct (Z.min_spec x z) as [[_ ->] | [_ ->]];
          [by left|by right; left].
      * by do 2 right.
    + intros y [-> | [-> | Hy]%elem_of_cons]%elem_of_cons.
      * specialize (Hle (Z.min x z)). pose proof (Hle ltac:(by left)). lia.
      * specialize (Hle (Z.min x z)). pose proof (Hle ltac:(by left)). lia.
      * apply Hle. by right.
Qed.

Lemma foldl_max_spec (l : list Z) : ∀ x,
  foldl Z.max x l ∈ x :: l ∧ ∀ y, y ∈ x :: l → y ≤ foldl Z.max x l.
Proof.
  induction l as [|z l IH]; intros x; cbn [foldl].
  - split; [by left|]. intros y ->%list_elem_of_singleton. lia.
  - destruct (IH (Z.max x z)) as [Hin Hle]. split.
    + apply elem_of_cons in Hin as [-> | Hin].
      * destruct (Z.max_spec x z) as [[_ ->] | [_ ->]];
          [by right; left|by left].
      * by do 2 right.
    + intros y [-> | [-> | Hy]%elem_of_cons]%elem_of_cons.
      * specialize (Hle (Z.max x z)). pose proof (Hle ltac:(by left)). lia.
      * specialize (Hle (Z.max x z)). pose proof (Hle ltac:(by left)). lia.
      * apply Hle. by right.
Qed.

(** The smallest and the largest start of a non-empty range of bins. *)
Lemma amin_py_range A L :
  A < L → Fret.amin (py_range A L bin_width) = Fret.Done A.
Proof.
  intros HAL. rewrite py_range_cons by done. cbn [Fret.amin]. f_equal.
  destruct (foldl_min_spec (py_range (A + bin_width) L bin_width) A)
    as [Hin Hle].
  apply elem_of_cons in Hin as [-> | Hin]; [done|].
  apply py_range_elem_iff in Hin as [? _]; [|done].
  pose proof (Hle A ltac:(by left)). lia.
Qed.

Lemma amax_py_range A L :
  A < L → (L - A) mod bin_width = 0 →
  Fret.amax (py_range A L bin_width) = Fret.Done (L - bin_width).
Proof.
  intros HAL Hgrid.
  assert (Htop : ∀ j, j ∈ py_range A L bin_width → j ≤ L - bin_width).
  { intros j [[? ?] Hj]%py_range_elem_iff; [|done].
    apply Z.mod_divide in Hgrid as [k Hk]; [|lia].
    apply Z.mod_divide in Hj as [m Hm]; [|lia].
    assert (m < k) by nia. nia. }
  assert (Hmem : L - bin_width ∈ py_range A L bin_width).
  { apply py_range_elem_iff; [done|].
    apply Z.mod_divide in Hgrid as [k Hk]; [|lia].
    assert (1 ≤ k) by nia. split; [nia|].
    replace (L - bin_width - A) with ((k - 1) * bin_width) by lia.
    apply Z_mod_mult. }
  revert Htop Hmem. rewrite py_range_cons by done. intros Htop Hmem.
  cbn [Fret.amax]. f_equal.
  destruct (foldl_max_spec (py_range (A + bin_width) L bin_width) A)
    as [Hin Hle].
  specialize (Htop _ Hin). specialize (Hle _ Hmem). lia.
Qed.

Lemma select_window_fmap (f : Z → Bin) lo hi (l : list Z) :
  (∀ s, start_t (f s) = s) →
  Fret.select_window lo hi (f <$> l)
  = f <$> filter (λ x, lo ≤ x ∧ x < hi) l.
Proof.
  intros Hf. unfold Fret.select_window.
  induction l as [|x l IH]; [done|].
  rewrite fmap_cons, !filter_cons, Hf, IH.
  by destruct (decide (lo ≤ x ∧ x < hi)).
Qed.

Lemma fmap_start_bins (f : Z → Bin) (l : list Z) :
  (∀ s, start_t (f s) = s) → start_t <$> (f <$> l) = l.
Proof.
  intros Hf. rewrite <- list_fmap_compose.
  rewrite <- (list_fmap_id l) at 2. apply list_fmap_ext. intros _ s _. apply Hf.
Qed.

(** Two gapless traces on the same grid are cut to the same bins. *)
Lemma align_traces_grid (f g : Z → Bin) Aa La Ab Lb :
  (∀ s, start_t (f s) = s) → (∀ s, start_t (g s) = s) →
  Aa mod bin_width = 0 → La mod bin_width = 0 →
  Ab mod bin_width = 0 → Lb mod bin_width = 0 →
  Aa < La → Ab < Lb →
  let lo := Z.max Aa Ab in
  let hi := Z.min La Lb - bin_width in
  Fret.align_traces (f <$> py_range Aa La bin_width)
                    (g <$> py_range Ab Lb bin_width)
  = Fret.Done
      {| Fret.ba := f <$> py_range lo hi bin_width;
         Fret.bd := g <$> py_range lo hi bin_width;
         Fret.dt := u64 (hi - lo);
         Fret.ctot :=
           zip_with (λ a b, u16 (a + b))
             (count <$> (f <$> py_range lo hi bin_width))
             (count <$> (g <$> py_range lo hi bin_width)) |}.
Proof.
  intros Hf Hg HAa HLa HAb HLb Ha Hb lo hi. unfold Fret.align_traces.
  rewrite !fmap_start_bins by done.
  rewrite !amin_py_range by done.
  rewrite !amax_py_range by (done || by apply grid_diff).
  cbn [Fret.obind].
  replace (Z.min (La - bin_width) (Lb - bin_width)) with hi
    by (unfold hi; lia).
  fold lo.
  assert (Hlo : lo mod bin_width = 0).
  { unfold lo. by destruct (Z.max_spec Aa Ab) as [[_ ->] | [_ ->]]. }
  rewrite !select_window_fmap by done.
  rewrite !filter_py_range
    by (done || (by apply grid_diff) || unfold lo, hi; lia).
  unfold Fret.add_uint16.
  rewrite !length_fmap. by destruct (decide _).
Qed.

End FretTraces.

Section FretScript.

Variable uninit : Bin.
Variables (da dd : list Z) (bin_width : Z).

Hypothesis Hwidth : safe_width bin_width.
Hypothesis Hda : Forall safe_time da.
Hypothesis Hdd : Forall safe_time dd.

(** The default call on a sorted trace. *)
Lemma default_call_closed_form (times : list Z) t_first t_last :
  Forall safe_time times → Sorted Z.le times →
  times !! 0%nat = Some t_first → last times = Some t_last →
  bin_photons uninit times bin_width UNSPECIFIED UNSPECIFIED true
  = Ok (bin_of bin_width times
          <$> py_range (align bin_width t_first) (align bin_width t_last)
                       bin_width).
Proof.
  intros Hts Hsorted Hfirst Hlast.
  assert (Hanchor : Forall (λ t, align bin_width t_first ≤ t) times).
  { destruct times as [|t ts]; [done|]. injection Hfirst as ->.
    apply Sorted_StronglySorted in Hsorted; [|apply _].
    apply StronglySorted_cons in Hsorted as [Hle _].
    pose proof (align_floor bin_width t_first (proj1 Hwidth)).
    constructor; [done|]. eapply Forall_impl; [exact Hle|]. cbn. lia. }
  rewrite (bin_photons_safe bin_width true Hwidth uninit times UNSPECIFIED
             UNSPECIFIED t_first); [|done|by left|by left|done].
  rewrite (pass_closed_form _ _ (proj1 Hwidth) _ Hsorted Hanchor).
  unfold trailing, last_start. rewrite Hlast. cbn. by rewrite app_nil_r.
Qed.

(** X7. When both channels are sorted and each spans more than one bin,
    the script cuts both traces to the same bins: those from the later
    of the two first bins up to, and excluding, the bin before the
    earlier of the two last-event bins. The two traces then have equal
    length, so that [ctot] is their elementwise sum modulo [2 ^ 16]
    (no broadcasting, no shape error); [dt] is the width of the window
    when the channels overlap, and wraps around [2 ^ 64] when they do
    not. *)
Theorem aligned_traces_share_bins a_first a_last d_first d_last :
  Sorted Z.le da → Sorted Z.le dd →
  da !! 0%nat = Some a_first → last da = Some a_last →
  dd !! 0%nat = Some d_first → last dd = Some d_last →
  align bin_width a_first < align bin_width a_last →
  align bin_width d_first < align bin_width d_last →
  let lo := Z.max (align bin_width a_first) (align bin_width d_first) in
  let hi := Z.min (align bin_width a_last) (align bin_width d_last)
            - bin_width in
  ∃ tr,
    Fret.binned_traces uninit da dd bin_width = Fret.Done tr
    ∧ Fret.ba tr = bin_of bin_width da <$> py_range lo hi bin_width
    ∧ Fret.bd tr = bin_of bin_width dd <$> py_range lo hi bin_width
    ∧ length (Fret.ba tr) = length (Fret.bd tr)
    ∧ Fret.ctot tr = zip_with (λ a b, u16 (a + b))
                       (count <$> Fret.ba tr) (count <$> Fret.bd tr)
    ∧ (lo ≤ hi →
       Fret.dt tr = bin_width * Z.of_nat (length (Fret.ba tr)))
    ∧ (hi < lo → Fret.dt tr = 2 ^ 64 - (lo - hi)).
Proof.
  intros Hsa Hsd Hfa Hla Hfd Hld Hspan_a Hspan_d lo hi.
  destruct Hwidth as [Hw0 Hw1].
  unfold Fret.binned_traces.
  rewrite (default_call_closed_form da a_first a_last) by done.
  rewrite (default_call_closed_form dd d_first d_last) by done.
  rewrite align_traces_grid; [|done|done|done|by apply align_mod..|done|done].
  fold lo hi. eexists. split; [reflexivity|]. cbn [Fret.ba Fret.bd Fret.ctot
                                                   Fret.dt].
  split; [done|]. split; [done|]. split; [by rewrite !length_fmap|].
  split; [done|].
  (* the window lies on the grid and inside the safe range *)
  assert (Hsafe : ∀ t, t ∈ da ++ dd → 0 ≤ align bin_width t ≤ t ∧ t < 2 ^ 62).
  { intros t Ht. assert (safe_time t) as [? ?].
    { apply elem_of_app in Ht as [Ht | Ht];
        [rewrite Forall_forall in Hda; by apply Hda
        |rewrite Forall_forall in Hdd; by apply Hdd]. }
    split; [by apply align_le|done]. }
  assert (Hin : ∀ (l : list Z) t, l !! 0%nat = Some t ∨ last l = Some t →
                                  t ∈ l).
  { intros l t [H | H]; [by eapply list_elem_of_lookup_2
                         |by apply last_Some_elem_of]. }
  pose proof (Hsafe a_first ltac:(apply elem_of_app; left; apply Hin; auto)).
  pose proof (Hsafe a_last ltac:(apply elem_of_app; left; apply Hin; auto)).
  pose proof (Hsafe d_first ltac:(apply elem_of_app; right; apply Hin; auto)).
  pose proof (Hsafe d_last ltac:(apply elem_of_app; right; apply Hin; auto)).
  assert (Hgrid : (hi - lo) mod bin_width = 0).
  { apply grid_diff; [done| |].
    - unfold hi. apply grid_diff; [done| |by apply Z_mod_same_full].
      destruct (Z.min_spec (align bin_width a_last) (align bin_width d_last))
        as [[_ ->] | [_ ->]]; by apply align_mod.
    - unfold lo.
      destruct (Z.max_spec (align bin_width a_first) (align bin_width d_first))
        as [[_ ->] | [_ ->]]; by apply align_mod. }
  split.
  - intros Hle. rewrite u64_small by lia.
    apply Z.mod_divide in Hgrid as [m Hm]; [|lia].
    assert (0 ≤ m) by nia.
    replace hi with (lo + m * bin_width) by lia.
    rewrite length_fmap, py_range_length by done. lia.
  - intros Hlt. unfold u64.
    replace (hi - lo) with (2 ^ 64 - (lo - hi) + (-1) * 2 ^ 64) by ring.
    rewrite Z_mod_plus_full. apply Z.mod_small. lia.
Qed.

(** X8. When both channels hold at least one event and all events of
    one of them fall into a single bin, [bin_photons] returns no bin for
    that channel and the script stops with [ValueError] at the minimum
    of an empty array. *)
Theorem single_bin_channel_stops_script a_first d_first :
  da !! 0%nat = Some a_first → dd !! 0%nat = Some d_first →
  Forall (λ t, t < align bin_width a_first + bin_width) da
  ∨ Forall (λ t, t < align bin_width d_first + bin_width) dd →
  Fret.binned_traces uninit da dd bin_width = Fret.Fail Fret.ValueError.
Proof.
  intros Hfa Hfd Hsingle. unfold Fret.binned_traces.
  rewrite (bin_photons_safe bin_width true Hwidth uninit da UNSPECIFIED
             UNSPECIFIED a_first); [|done|by left|by left|done].
  rewrite (bin_photons_safe bin_width true Hwidth uninit dd UNSPECIFIED
             UNSPECIFIED d_first); [|done|by left|by left|done].
  unfold trailing. cbn [andb negb Z.eqb UNSPECIFIED]. rewrite !app_nil_r.
  unfold Fret.align_traces.
  destruct (pass_first_bin bin_width true a_first da)
    as [(-> & _ & _) | (ca & ra & -> & Hexa)]; [done|].
  destruct (pass_first_bin bin_width true d_first dd)
    as [(-> & _ & _) | (cd & rd & -> & Hexd)]; [done|].
  exfalso. destruct Hsingle as [Hall | Hall]; rewrite Forall_forall in Hall.
  - apply Exists_exists in Hexa as (t & Hin & Ht). specialize (Hall t Hin). lia.
  - apply Exists_exists in Hexd as (t & Hin & Ht). specialize (Hall t Hin). lia.
Qed.

End FretScript.

(** X12. A channel without events stops the script inside [bin_photons]:
    an empty acceptor channel raises [IndexError] at [times[0]] whatever
    the donor channel holds, and with an empty donor channel the script
    ends in an exception of one of the two calls, which is the
    [IndexError] of the donor call whenever the acceptor call returns. *)
Theorem empty_channel_stops_script uninit da dd bin_width :
  Fret.binned_traces uninit [] dd bin_width
  = Fret.Fail (Fret.BinPhotons IndexError)
  ∧ (∃ e, Fret.binned_traces uninit da [] bin_width
          = Fret.Fail (Fret.BinPhotons e))
  ∧ (safe_width bin_width → Forall safe_time da →
     Fret.binned_traces uninit da [] bin_width
     = Fret.Fail (Fret.BinPhotons IndexError)).
Proof.
  split; [done|]. unfold Fret.binned_traces. split.
  - destruct (bin_photons uninit da bin_width UNSPECIFIED UNSPECIFIED true);
      eauto.
  - intros Hwidth Hda. destruct da as [|a_first da'] eqn:Hdef; [done|].
    rewrite <- Hdef in *.
    rewrite (bin_photons_safe bin_width true Hwidth uninit da UNSPECIFIED
               UNSPECIFIED a_first); [done|done|by left|by left|by subst].
Qed.

Section RangeArguments.

Variable uninit : Bin.
Variables (times : list Z) (bin_width t_start t_end : Z).

Hypothesis Hwidth : safe_width bin_width.
Hypothesis Htimes : Forall safe_time times.
Hypothesis Hstart : safe_opt t_start.
Hypothesis Hend : safe_opt t_end.

(** X9. When every event lies below the end of the first bin (for
    instance when [start_t] lies beyond the data), the zero-filled result
    up to a given [end_t] consists of zero-count entries only, from the
    second bin on: neither the events nor the first bin appear in it. *)
Theorem absorbed_events_leave_zero_bins t0 :
  first_time times t_start = Some t0 →
  t_end ≠ UNSPECIFIED →
  Forall (λ t, t < align bin_width t0 + bin_width) times →
  bin_photons uninit times bin_width t_start t_end true
  = Ok (zero_bin <$> py_range (align bin_width t0 + bin_width) t_end
                              bin_width).
Proof.
  intros Hfirst Hgiven Hall.
  rewrite (bin_photons_safe _ _ Hwidth _ _ _ _ _ Htimes Hstart Hend Hfirst).
  unfold trailing.
  destruct (pass_first_bin bin_width true t0 times)
    as [(-> & -> & _) | (c & rest & _ & Hex)].
  - apply Z.eqb_neq in Hgiven as ->. done.
  - exfalso. apply Exists_exists in Hex as (t & Hin & Ht).
    rewrite Forall_forall in Hall. specialize (Hall t Hin). lia.
Qed.

(** X10. An explicit [end_t] never removes or changes a bin: the result
    is the result without [end_t] followed by entries of count zero that
    start below [end_t]. *)
Theorem end_t_only_appends_zero_bins include_zeros t0 :
  first_time times t_start = Some t0 →
  ∃ out zs,
    bin_photons uninit times bin_width t_start UNSPECIFIED include_zeros
    = Ok out
    ∧ bin_photons uninit times bin_width t_start t_end include_zeros
      = Ok (out ++ zs)
    ∧ Forall (λ b, count b = 0 ∧ start_t b < t_end) zs.
Proof.
  intros Hfirst.
  exists (Single.out (pass bin_width include_zeros t0 times)),
         (trailing bin_width include_zeros t_end
                   (pass bin_width include_zeros t0 times)).
  split.
  { rewrite (bin_photons_safe bin_width include_zeros Hwidth uninit times
               t_start UNSPECIFIED t0); [|done|done|by left|done].
    unfold trailing. by rewrite andb_false_r, app_nil_r. }
  split; [by apply bin_photons_safe|].
  apply Forall_forall. intros b Hb.
  apply (trailing_elem _ _ _ Hwidth) in Hb. lia.
Qed.

End RangeArguments.

Section Gapless.

Variable uninit : Bin.
Variables (times : list Z) (bin_width t_start : Z).

Hypothesis Hwidth : safe_width bin_width.
Hypothesis Htimes : Forall safe_time times.
Hypothesis Hstart : safe_opt t_start.

Lemma py_range_lookup lo hi step (k : nat) x :
  py_range lo hi step !! k = Some x → x = lo + Z.of_nat k * step.
Proof.
  unfold py_range. rewrite list_lookup_fmap.
  destruct (seqZ 0 (range_len lo hi step) !! k) as [i|] eqn:Hi; [|done].
  apply lookup_seqZ in Hi as [-> _]. cbn. intros [= <-]. lia.
Qed.

(** X11. Without [end_t] the zero-filled result has no gap, whatever the
    order of the events: its entry number [k] starts at the anchor plus
    [k] bin widths. *)
Theorem zero_filled_result_is_gapless t0 :
  first_time times t_start = Some t0 →
  ∃ out,
    bin_photons uninit times bin_width t_start UNSPECIFIED true = Ok out
    ∧ ∀ (k : nat) b,
        out !! k = Some b →
        start_t b = align bin_width t0 + Z.of_nat k * bin_width.
Proof.
  intros Hfirst. eexists. split.
  { apply bin_photons_safe; [done..|by left|done]. }
  unfold trailing. rewrite andb_false_r, app_nil_r.
  intros k b Hk. apply (py_range_lookup _ (Single.bin_start
                          (pass bin_width true t0 times))).
  rewrite <- (pass_contiguous bin_width t0 (proj1 Hwidth) times).
  by rewrite list_lookup_fmap, Hk.
Qed.

End Gapless.

(** ** The further statements at concrete inputs *)

(** A concrete list of timestamps is sorted. *)
Ltac sorted_input := repeat (constructor; try lia).

(** X1 at [times = [0, 7, 12, 17, 23]], [bin_width = 5], [end_t = 40]:
    the bin at 20, which holds the last event, is in neither part. *)
Lemma sorted_trace_closed_form_witness :
  bin_photons junk [0; 7; 12; 17; 23] 5 UNSPECIFIED 40 true
  = Ok [ {| start_t := 0; count := 1 |}; {| start_t := 5; count := 1 |};
         {| start_t := 10; count := 1 |}; {| start_t := 15; count := 1 |};
         {| start_t := 25; count := 0 |}; {| start_t := 30; count := 0 |};
         {| start_t := 35; count := 0 |} ].
Proof.
  rewrite (sorted_trace_closed_form junk [0; 7; 12; 17; 23] 5 UNSPECIFIED 40)
    with (t0 := 0); [reflexivity|safe_input..|sorted_input|reflexivity|].
  intros Hgiven. by destruct Hgiven.
Defined.

(** X2 at [times = [0, 20]], [bin_width = 5]. *)
Lemma zero_filled_filters_to_plain_witness :
  ∃ full plain,
    bin_photons junk [0; 20] 5 UNSPECIFIED UNSPECIFIED true = Ok full
    ∧ bin_photons junk [0; 20] 5 UNSPECIFIED UNSPECIFIED false = Ok plain
    ∧ filter (λ b, count b ≠ 0) full = plain.
Proof.
  apply (zero_filled_filters_to_plain junk [0; 20] 5 UNSPECIFIED UNSPECIFIED)
    with (t0 := 0); [safe_input..|reflexivity|cbn; lia|by left].
Defined.

(** X3 at [times = [0, 7]] extended by [[12, 30]], [bin_width = 5]. *)
Lemma appended_events_extend_result_witness :
  ∃ out out',
    bin_photons junk [0; 7] 5 UNSPECIFIED UNSPECIFIED true = Ok out
    ∧ bin_photons junk ([0; 7] ++ [12; 30]) 5 UNSPECIFIED UNSPECIFIED true
      = Ok out'
    ∧ out `prefix_of` out'.
Proof.
  apply (appended_events_extend_result junk [0; 7] [12; 30] 5 UNSPECIFIED
           true) with (t0 := 0); [safe_input| |safe_input|reflexivity].
  repeat constructor; unfold safe_time; lia.
Defined.

(** X4 at [times = [1, 2, 3]], [bin_width = 5]: three events, no bin. *)
Lemma empty_result_iff_single_bin_witness :
  bin_photons junk [1; 2; 3] 5 UNSPECIFIED UNSPECIFIED true = Ok [].
Proof.
  destruct (empty_result_iff_single_bin junk [1; 2; 3] 5 UNSPECIFIED)
    with (include_zeros := true) (t0 := 1) as (out & Hout & Hiff);
    [safe_input..|reflexivity|].
  rewrite Hout. f_equal. apply Hiff.
  repeat constructor; vm_compute; reflexivity.
Defined.

(** X7 at [da = [0, 7, 12, 17, 23]], [dd = [3, 8, 14, 21, 30, 31]],
    [bin_width = 5]: both traces are cut to the bins at 0, 5 and 10. *)
Lemma aligned_traces_share_bins_witness :
  ∃ tr,
    Fret.binned_traces junk [0; 7; 12; 17; 23] [3; 8; 14; 21; 30; 31] 5
    = Fret.Done tr
    ∧ start_t <$> Fret.ba tr = [0; 5; 10]
    ∧ start_t <$> Fret.bd tr = [0; 5; 10]
    ∧ Fret.ctot tr = [2; 2; 2]
    ∧ Fret.dt tr = 15.
Proof.
  destruct (aligned_traces_share_bins junk [0; 7; 12; 17; 23]
              [3; 8; 14; 21; 30; 31] 5)
    with (a_first := 0) (a_last := 23) (d_first := 3) (d_last := 31)
    as (tr & Hrun & Hba & Hbd & _ & Hctot & Hdt & _);
    [safe_input|safe_input|safe_input|sorted_input|sorted_input
    |reflexivity|reflexivity|reflexivity|reflexivity| | |].
  - vm_compute. reflexivity.
  - vm_compute. reflexivity.
  - exists tr. split; [exact Hrun|].
    rewrite Hctot, Hdt, Hba, Hbd; [|vm_compute; by intros [=]].
    repeat split; vm_compute; reflexivity.
Defined.

(** X8 at [da = [0, 1, 2]], [dd = [3, 8, 14]], [bin_width = 5]. *)
Lemma single_bin_channel_stops_script_witness :
  Fret.binned_traces junk [0; 1; 2] [3; 8; 14] 5 = Fret.Fail Fret.ValueError.
Proof.
  apply (single_bin_channel_stops_script junk [0; 1; 2] [3; 8; 14] 5)
    with (a_first := 0) (d_first := 3);
    [safe_input|safe_input|safe_input|reflexivity|reflexivity|].
  left. repeat constructor; vm_compute; reflexivity.
Defined.

(** X9 at [times = [0, 1, 12]], [bin_width = 5], [start_t = 10],
    [end_t = 30]: three events, three zero counts. *)
Lemma absorbed_events_leave_zero_bins_witness :
  bin_photons junk [0; 1; 12] 5 10 30 true
  = Ok [ {| start_t := 15; count := 0 |}; {| start_t := 20; count := 0 |};
         {| start_t := 25; count := 0 |} ].
Proof.
  rewrite (absorbed_events_leave_zero_bins junk [0; 1; 12] 5 10 30)
    with (t0 := 10);
    [reflexivity|safe_input|safe_input|safe_input|safe_input|reflexivity| |].
  - unfold UNSPECIFIED. lia.
  - repeat constructor; vm_compute; reflexivity.
Defined.

(** X10 at [times = [0, 7, 12]], [bin_width = 5], [end_t = 30]. *)
Lemma end_t_only_appends_zero_bins_witness :
  ∃ out zs,
    bin_photons junk [0; 7; 12] 5 UNSPECIFIED UNSPECIFIED true = Ok out
    ∧ bin_photons junk [0; 7; 12] 5 UNSPECIFIED 30 true = Ok (out ++ zs)
    ∧ Forall (λ b, count b = 0 ∧ start_t b < 30) zs.
Proof.
  apply (end_t_only_appends_zero_bins junk [0; 7; 12] 5 UNSPECIFIED 30)
    with (t0 := 0); [safe_input..|reflexivity].
Defined.

(** X11 at the unsorted [times = [0, 22, 3, 41]], [bin_width = 5]. *)
Lemma zero_filled_result_is_gapless_witness :
  ∃ out,
    bin_photons junk [0; 22; 3; 41] 5 UNSPECIFIED UNSPECIFIED true = Ok out
    ∧ ∀ (k : nat) b,
        out !! k = Some b → start_t b = align 5 0 + Z.of_nat k * 5.
Proof.
  apply (zero_filled_result_is_gapless junk [0; 22; 3; 41] 5 UNSPECIFIED)
    with (t0 := 0); [safe_input..|reflexivity].
Defined.

(** X12 at the acceptor events [[0, 1, 2]] and no donor event. *)
Lemma empty_channel_stops_script_witness :
  Fret.binned_traces junk [0; 1; 2] [] 5
  = Fret.Fail (Fret.BinPhotons IndexError).
Proof.
  apply (empty_channel_stops_script junk [0; 1; 2] [] 5); safe_input.
Defined.
